(** * Stem normalizer: a shallow embedding of [normalizer.py]

    The program loads the audio stems of a folder, sums them into a mix,
    measures the integrated loudness of the mix, applies the one gain that
    moves the mix to the target loudness to every stem, writes the stems
    out and re-measures what it wrote.

    Python values are modelled as follows.
    - [str] is [string]; a file name is its byte string.
    - PCM audio is a list of signed integer samples ([Z]), interleaved by
      channel, together with the sample width, frame rate and channel count
      (pydub's [AudioSegment]).
    - A [float] that holds a time (seconds, milliseconds, a frame count) is
      an exact rational [Q]: the code only multiplies, divides and rounds it.
    - A [float] that holds a level (LUFS, dB) or a normalised sample is a
      real number [R]: it goes through [10 ** x] and the loudness meter.
      Infinities and NaN are outside the model.
    - The file system is a pair of finite maps, the standard output a list
      of lines, an exception a value of [exn]. *)

From Stdlib Require Import ZArith QArith Qround Lqa Reals Lra Lia List String Ascii Bool.
From stdpp Require Import gmap strings list.

Local Open Scope Z_scope.

(** ** Exceptions, results and standard output *)

Inductive exn : Type :=
| FileNotFoundError
| FileExistsError
| CouldntDecodeError
| NameError (name : string)
| AssertionError
| ValueError
| WaveError
| StructError
| LibsndfileError
| TooManyMissingFrames.

Inductive result (A : Type) : Type :=
| Ok (a : A)
| Raise (e : exn).

Arguments Ok {A} a.
Arguments Raise {A} e.

(** The lines [print] writes, one constructor per f-string of the source;
    a formatted number is kept as the number. *)
Inductive line : Type :=
| NoAudioFilesFound (folder : string)
| DetectedLoudness (lufs : R)
| GainToApply (dB : R)
| AdjustedStemsSaved (folder : string)
| CombinedLoudness (lufs : R).

(** ** The world: directories, files, standard output *)

Record World : Type := mkWorld {
  dirs : gmap string (list string);   (* directory path -> its entries, in listing order *)
  files : gmap string (list Z);       (* file path -> its bytes *)
  stdout : list line
}.

Definition M (A : Type) : Type := World -> result A * World.

Definition ret {A} (a : A) : M A := fun w => (Ok a, w).

Definition raise {A} (e : exn) : M A := fun w => (Raise e, w).

Definition bind {A B} (m : M A) (k : A -> M B) : M B :=
  fun w => match m w with
           | (Ok a, w') => k a w'
           | (Raise e, w') => (Raise e, w')
           end.

Definition lift {A} (r : result A) : M A := fun w => (r, w).

Global Instance M_ret : MRet M := @ret.
Global Instance M_bind : MBind M := fun A B k m => bind m k.

Definition print (l : line) : M unit :=
  fun w => (Ok tt, mkWorld (dirs w) (files w) (stdout w ++ [l])).

(** ** Strings and paths *)

(** [str.lower] on the bytes of a name: only A-Z change. A character outside
    ASCII is a run of bytes above 127, which no extension contains. *)
Definition lower_ascii (c : ascii) : ascii :=
  let n := nat_of_ascii c in
  if (Nat.leb 65 n && Nat.leb n 90)%bool then ascii_of_nat (n + 32) else c.

Fixpoint lower (s : string) : string :=
  match s with
  | EmptyString => EmptyString
  | String c s' => String (lower_ascii c) (lower s')
  end.

(** [s.endswith(suffix)] *)
Fixpoint endswith (s suffix : string) : bool :=
  if String.eqb s suffix then true
  else match s with
       | EmptyString => false
       | String _ s' => endswith s' suffix
       end.

Definition VALID_AUDIO_EXTENSIONS : list string :=
  [".wav"; ".mp3"; ".flac"; ".aac"; ".ogg"; ".m4a"]%string.

(** [any(filename.lower().endswith(ext) for ext in VALID_AUDIO_EXTENSIONS)] *)
Definition has_audio_extension (filename : string) : bool :=
  existsb (fun ext => endswith (lower filename) ext) VALID_AUDIO_EXTENSIONS.

(** [os.path.join(a, b)] (posixpath) *)
Definition os_path_join (a b : string) : string :=
  if String.prefix "/" b then b
  else if (String.eqb a "" || endswith a "/")%bool then (a +:+ b)%string
  else (a +:+ "/" +:+ b)%string.

(** [os.path.basename(p)] (posixpath): what follows the last slash. *)
Fixpoint os_path_basename_aux (p acc : string) : string :=
  match p with
  | EmptyString => acc
  | String c p' =>
      if Ascii.eqb c "/"%char then os_path_basename_aux p' EmptyString
      else os_path_basename_aux p' (acc +:+ String c EmptyString)%string
  end.

Definition os_path_basename (p : string) : string :=
  os_path_basename_aux p EmptyString.

(** ** File-system calls *)

(** [os.listdir(path)] *)
Definition os_listdir (path : string) : M (list string) :=
  fun w => match dirs w !! path with
           | Some entries => (Ok entries, w)
           | None => (Raise FileNotFoundError, w)
           end.

(** [os.makedirs(path, exist_ok=True)] *)
Definition os_makedirs (path : string) : M unit :=
  fun w => match files w !! path with
           | Some _ => (Raise FileExistsError, w)
           | None =>
               match dirs w !! path with
               | Some _ => (Ok tt, w)
               | None => (Ok tt, mkWorld (<[path := []]> (dirs w)) (files w) (stdout w))
               end
           end.

(** Opening [folder/filename] for writing truncates or creates the file and,
    when it is new, adds its name to the directory. *)
Definition add_entry (filename : string) (entries : list string) : list string :=
  if existsb (String.eqb filename) entries then entries else entries ++ [filename].

Definition write_file (folder filename : string) (content : list Z) : M unit :=
  fun w => match dirs w !! folder with
           | None => (Raise FileNotFoundError, w)
           | Some entries =>
               (Ok tt, mkWorld (<[folder := add_entry filename entries]> (dirs w))
                               (<[os_path_join folder filename := content]> (files w))
                               (stdout w))
           end.

(** ** PCM audio: pydub's [AudioSegment] over CPython's [audioop] *)

Record AudioSegment : Type := mkSeg {
  sample_width : Z;   (* bytes per sample *)
  frame_rate : Z;     (* frames per second *)
  channels : Z;
  data : list Z       (* signed samples, interleaved by channel *)
}.

(** [self._spawn(data)]: same metadata, new samples. *)
Definition spawn (seg : AudioSegment) (d : list Z) : AudioSegment :=
  mkSeg (sample_width seg) (frame_rate seg) (channels seg) d.

(** [audioop]'s tables [maxvals] and [minvals]. *)
Definition maxval (width : Z) : Z := 2 ^ (8 * width - 1) - 1.
Definition minval (width : Z) : Z := - 2 ^ (8 * width - 1).

(** The invariant of raw PCM bytes: every sample fits its width. *)
Definition sample_ok (width s : Z) : Prop := minval width <= s <= maxval width.
Definition samples_ok (seg : AudioSegment) : Prop :=
  Forall (sample_ok (sample_width seg)) (data seg).

(** [int(x)] and [round(x)] on a float holding a time. *)
Definition int_of_float (x : Q) : Z :=
  if Qle_bool 0 x then Qfloor x else Qceiling x.

Definition py_round (x : Q) : Z :=
  let f := Qfloor x in
  match Qcompare (x - inject_Z f) (1 # 2) with
  | Lt => f
  | Gt => f + 1
  | Eq => if Z.even f then f else f + 1
  end.

(** [frame_count()]: [float(len(self._data) // self.frame_width)] *)
Definition frame_count (seg : AudioSegment) : Q :=
  inject_Z (Z.of_nat (length (data seg)) / channels seg).

(** [frame_count(ms)]: [ms * (self.frame_rate / 1000.0)] *)
Definition frame_count_ms (seg : AudioSegment) (ms : Q) : Q :=
  (ms * (inject_Z (frame_rate seg) / 1000))%Q.

(** [duration_seconds]: [frame_rate and frame_count() / frame_rate or 0.0] *)
Definition duration_seconds (seg : AudioSegment) : Q :=
  if frame_rate seg =? 0 then 0%Q
  else (frame_count seg / inject_Z (frame_rate seg))%Q.

(** [len(seg)], in milliseconds:
    [round(1000 * (self.frame_count() / self.frame_rate))] *)
Definition len_ms (seg : AudioSegment) : Z :=
  py_round (1000 * (frame_count seg / inject_Z (frame_rate seg)))%Q.

(** [AudioSegment.silent(duration, frame_rate=11025)]:
    [frames = int(frame_rate * (duration / 1000.0))], mono, 16 bit. *)
Definition silent (duration : Q) (rate : Z) : AudioSegment :=
  let frames := int_of_float (inject_Z rate * (duration / 1000))%Q in
  mkSeg 2 rate 1 (repeat 0 (Z.to_nat frames)).

(** [_parse_position(val)] *)
Definition parse_position (seg : AudioSegment) (val : Z) : Z :=
  let val := if val <? 0 then len_ms seg - Z.abs val else val in
  int_of_float (frame_count_ms seg (inject_Z val)).

(** [l[start:stop]] for [0 <= start]. *)
Definition py_slice {A} (l : list A) (start stop : Z) : list A :=
  firstn (Z.to_nat (stop - start)) (skipn (Z.to_nat start) l).

(** [seg[start:stop]], positions in milliseconds ([__getitem__] on a slice
    without step): the samples between the two frame positions, filled up
    with zero frames when the rounded position lies past the end. *)
Definition getitem_slice (seg : AudioSegment) (start stop : Z) : result AudioSegment :=
  let start := Z.min start (len_ms seg) in
  let stop := Z.min stop (len_ms seg) in
  let start := parse_position seg start * channels seg in
  let stop := parse_position seg stop * channels seg in
  let d := py_slice (data seg) start stop in
  let expected_length := stop - start in
  let missing_frames := (expected_length - Z.of_nat (length d)) / channels seg in
  if missing_frames =? 0 then Ok (spawn seg d)
  else if negb (Qle_bool (inject_Z missing_frames) (frame_count_ms seg 2))
       then Raise TooManyMissingFrames
  else
    (* audioop.mul(data[:frame_width], sample_width, 0): one frame of zeros *)
    let silence := map (fun _ => 0) (firstn (Z.to_nat (channels seg)) d) in
    Ok (spawn seg (d ++ concat (repeat silence (Z.to_nat missing_frames)))).

(** [audioop.add]: the sum, saturated at the width's range. *)
Definition clip (width v : Z) : Z :=
  if maxval width <? v then maxval width
  else if v <? minval width then minval width
  else v.

Definition audioop_add (d1 d2 : list Z) (width : Z) : list Z :=
  zip_with (fun a b => clip width (a + b)) d1 d2.

(** [audioop.lin2lin]: through a 32-bit sample, shifted up and down. *)
Definition audioop_lin2lin (d : list Z) (width width2 : Z) : list Z :=
  map (fun s => Z.shiftl s (8 * (width2 - width))) d.

(** [fbound] of [audioop.c]: saturate, then round towards minus infinity. *)
Definition fbound (val : R) (lo hi : Z) : Z :=
  Zfloor (if Rlt_dec (IZR hi) val then IZR hi
          else if Rlt_dec val (IZR lo + 1) then IZR lo
          else val).

(** [audioop.mul(data, width, factor)] *)
Definition audioop_mul (d : list Z) (width : Z) (factor : R) : list Z :=
  map (fun s => fbound (IZR s * factor) (minval width) (maxval width)) d.

(** [db_to_float(db)]: [10 ** (db / 20)] *)
Definition db_to_float (db : R) : R := Rpower 10 (db / 20).

(** [seg.apply_gain(volume_change)] *)
Definition apply_gain (seg : AudioSegment) (volume_change : R) : AudioSegment :=
  spawn seg (audioop_mul (data seg) (sample_width seg) (db_to_float volume_change)).

(** ** What the program takes from outside

    The decoders behind [AudioSegment.from_file] (ffmpeg), the resampler
    [audioop.ratecv], the down-mix to mono, the loudness meter of
    pyloudnorm and the way an f-string prints a float are parameters: no
    property below depends on what they compute. *)
Record Library : Type := mkLibrary {
  decode : string -> list Z -> option AudioSegment;
  audioop_ratecv : list Z -> Z -> Z -> Z -> Z -> list Z;
  downmix : list Z -> Z -> Z -> list Z;
  integrated_loudness : Z -> Z -> list R -> result R;
  format_float : R -> string
}.

Section Program.

Context (lib : Library).

(** [seg.set_channels(n)] *)
Definition set_channels (seg : AudioSegment) (n : Z) : result AudioSegment :=
  if n =? channels seg then Ok seg
  else if n =? 1 then
    Ok (mkSeg (sample_width seg) (frame_rate seg) n
              (downmix lib (data seg) (sample_width seg) (channels seg)))
  else if channels seg =? 1 then
    (* audioop.tostereo(data, width, 1, 1), from_mono_audiosegments *)
    Ok (mkSeg (sample_width seg) (frame_rate seg) n
              (flat_map (fun s => repeat s (Z.to_nat n)) (data seg)))
  else Raise ValueError.

(** [seg.set_frame_rate(rate)] *)
Definition set_frame_rate (seg : AudioSegment) (rate : Z) : AudioSegment :=
  if rate =? frame_rate seg then seg
  else
    let converted :=
      match data seg with
      | [] => []
      | _ => audioop_ratecv lib (data seg) (sample_width seg) (channels seg)
                            (frame_rate seg) rate
      end in
    mkSeg (sample_width seg) rate (channels seg) converted.

(** [seg.set_sample_width(width)] *)
Definition set_sample_width (seg : AudioSegment) (width : Z) : AudioSegment :=
  if width =? sample_width seg then seg
  else mkSeg width (frame_rate seg) (channels seg)
             (audioop_lin2lin (data seg) (sample_width seg) width).

(** [AudioSegment._sync(seg1, seg2)]: both in the larger format. *)
Definition sync (seg1 seg2 : AudioSegment)
  : result (AudioSegment * AudioSegment) :=
  let ch := Z.max (channels seg1) (channels seg2) in
  let rate := Z.max (frame_rate seg1) (frame_rate seg2) in
  let width := Z.max (sample_width seg1) (sample_width seg2) in
  match set_channels seg1 ch, set_channels seg2 ch with
  | Ok s1, Ok s2 =>
      Ok (set_sample_width (set_frame_rate s1 rate) width,
          set_sample_width (set_frame_rate s2 rate) width)
  | Raise e, _ => Raise e
  | _, Raise e => Raise e
  end.

(** [self.overlay(seg)], with [position=0] and one pass of the loop. *)
Definition overlay (self seg : AudioSegment) : result AudioSegment :=
  match sync self seg with
  | Raise e => Raise e
  | Ok (seg1, seg2) =>
      match getitem_slice seg1 0 0, getitem_slice seg1 0 (len_ms seg1) with
      | Ok head, Ok rest =>
          let d1 := data rest in
          let d2 := data seg2 in
          let remaining := Z.max 0 (Z.of_nat (length d1) - 0) in
          let d2 := if remaining <=? Z.of_nat (length d2)
                    then firstn (Z.to_nat remaining) d2 else d2 in
          Ok (spawn seg1
                (data head
                 ++ audioop_add (firstn (length d2) d1) d2 (sample_width seg1)
                 ++ skipn (length d2) d1))
      | Raise e, _ => Raise e
      | _, Raise e => Raise e
      end
  end.

(** ** WAV files: what [export(format="wav")] writes and [sf.read] reads *)

(** [n] bytes of [v], least significant first (two's complement when [v]
    is negative). *)
Fixpoint le_bytes (n : nat) (v : Z) : list Z :=
  match n with
  | O => []
  | S n' => v mod 256 :: le_bytes n' (v / 256)
  end.

Definition le_value (b : list Z) : Z :=
  fold_right (fun x acc => x + 256 * acc) 0 b.

(** [struct.pack] refuses a value outside the field. *)
Definition fits (bits v : Z) : bool := (0 <=? v) && (v <? 2 ^ bits).

Definition RIFF : list Z := [82; 73; 70; 70].
Definition WAVE : list Z := [87; 65; 86; 69].
Definition fmt_ : list Z := [102; 109; 116; 32].
Definition data_ : list Z := [100; 97; 116; 97].

(** The header of Python's [wave] module:
    [struct.pack('<L4s4sLHHLLHH4s', 36 + datalength, b'WAVE', b'fmt ', 16,
    WAVE_FORMAT_PCM, nchannels, framerate, nchannels * framerate * sampwidth,
    nchannels * sampwidth, sampwidth * 8, b'data')], [datalength] after it. *)
Definition wav_header (seg : AudioSegment) (datalength : Z) : list Z :=
  RIFF ++ le_bytes 4 (36 + datalength) ++ WAVE ++ fmt_
  ++ le_bytes 4 16 ++ le_bytes 2 1
  ++ le_bytes 2 (channels seg) ++ le_bytes 4 (frame_rate seg)
  ++ le_bytes 4 (channels seg * frame_rate seg * sample_width seg)
  ++ le_bytes 2 (channels seg * sample_width seg)
  ++ le_bytes 2 (sample_width seg * 8)
  ++ data_ ++ le_bytes 4 datalength.

(** The PCM bytes; 8-bit audio is stored unsigned ([audioop.bias(_, 1, 128)]). *)
Definition pcm_for_wav (seg : AudioSegment) : list Z :=
  flat_map (fun s => le_bytes (Z.to_nat (sample_width seg))
                              (if sample_width seg =? 1 then s + 128 else s))
           (data seg).

(** The whole file: header, then samples. *)
Definition wav_file (seg : AudioSegment) : list Z :=
  wav_header seg (Z.of_nat (length (pcm_for_wav seg))) ++ pcm_for_wav seg.

(** The header fields [struct.pack] has to hold. *)
Definition header_fits (seg : AudioSegment) : bool :=
  fits 32 (36 + Z.of_nat (length (pcm_for_wav seg)))
  && fits 16 (channels seg)
  && fits 32 (frame_rate seg)
  && fits 32 (channels seg * frame_rate seg * sample_width seg)
  && fits 16 (channels seg * sample_width seg).

(** [seg.export(format="wav")]: the bytes of the file. [wave] checks the
    channel count, the sample width and the frame rate when they are set,
    [struct.pack] the fields when the header is written. *)
Definition export_wav (seg : AudioSegment) : result (list Z) :=
  if channels seg <? 1 then Raise WaveError
  else if (sample_width seg <? 1) || (4 <? sample_width seg) then Raise WaveError
  else if frame_rate seg <=? 0 then Raise WaveError
  else if header_fits seg then Ok (wav_file seg)
  else Raise StructError.

(** The segments [export_wav] accepts. *)
Definition wav_exportable (seg : AudioSegment) : bool :=
  (1 <=? channels seg) && (1 <=? sample_width seg) && (sample_width seg <=? 4)
  && (1 <=? frame_rate seg) && header_fits seg.

(** What [sf.read] returns besides the rate: the samples as floats in
    [-1, 1), and how many channels they interleave. *)
Record SoundData : Type := mkSound {
  sound_channels : Z;
  sound_samples : list R
}.

Fixpoint read_samples (width n : nat) (b : list Z) : list Z :=
  match n with
  | O => []
  | S n' => le_value (firstn width b) :: read_samples width n' (skipn width b)
  end.

Definition to_signed (bits u : Z) : Z :=
  if bits =? 8 then u - 128
  else if u <? 2 ^ (bits - 1) then u else u - 2 ^ bits.

Definition field (b : list Z) (offset size : nat) : Z :=
  le_value (firstn size (skipn offset b)).

(** [sf.read(file)] on a RIFF/WAVE file with the 44-byte PCM header. *)
Definition sf_read (b : list Z) : result (SoundData * Z) :=
  let bits := field b 34 2 in
  if bool_decide (firstn 4 b = RIFF)
     && bool_decide (firstn 4 (skipn 8 b) = WAVE)
     && bool_decide (firstn 4 (skipn 12 b) = fmt_)
     && bool_decide (firstn 4 (skipn 36 b) = data_)
     && (field b 20 2 =? 1) && (1 <=? field b 22 2)
     && existsb (Z.eqb bits) [8; 16; 24; 32]
  then
    let width := Z.to_nat (bits / 8) in
    let pcm := firstn (Z.to_nat (field b 40 4)) (skipn 44 b) in
    let samples := read_samples width (length pcm / width)%nat pcm in
    Ok (mkSound (field b 22 2)
                (map (fun u => (IZR (to_signed bits u) / IZR (2 ^ (bits - 1)))%R)
                     samples),
        field b 24 4)
  else Raise LibsndfileError.

(** [np.isclose(a, b, rtol=1e-05, atol=1e-08)] on finite floats:
    [abs(a - b) <= atol + rtol * abs(b)] *)
Definition np_isclose (a b rtol atol : R) : bool :=
  if Rle_dec (Rabs (a - b)) (atol + rtol * Rabs b) then true else false.

(** ** The program *)

(** [AudioSegment.from_file(filepath)] *)
Definition from_file (filepath : string) : M AudioSegment :=
  fun w => match files w !! filepath with
           | None => (Raise FileNotFoundError, w)
           | Some bytes =>
               match decode lib filepath bytes with
               | Some audio => (Ok audio, w)
               | None => (Raise CouldntDecodeError, w)
               end
           end.

(** [adjusted_stem.export(os.path.join(folder, filename), format='wav')]:
    the file is opened for writing before anything is encoded. *)
Definition export (seg : AudioSegment) (folder filename : string) : M unit :=
  write_file folder filename [];;
  match export_wav seg with
  | Ok bytes => write_file folder filename bytes
  | Raise e => raise e
  end.

Definition calculate_loudness (audio_segment : AudioSegment) : result R :=
  let sample_rate := frame_rate audio_segment in
  match export_wav audio_segment with
  | Raise e => Raise e
  | Ok audio_bytes =>
      match sf_read audio_bytes with
      | Raise e => Raise e
      | Ok (data, _sample_rate) =>
          if sample_rate =? _sample_rate then
            (* meter = pyln.Meter(sample_rate); meter.integrated_loudness(data) *)
            integrated_loudness lib sample_rate (sound_channels data) (sound_samples data)
          else Raise AssertionError
      end
  end.

Definition adjust_gain (audio_segment : AudioSegment) (gain_dB : R) : AudioSegment :=
  apply_gain audio_segment gain_dB.

(** The discovery loop over [os.listdir(folder)], appending to [stems] and
    [filenames]. *)
Fixpoint load_stems (folder : string) (listing : list string)
    (stems : list AudioSegment) (filenames : list string)
  : M (list AudioSegment * list string) :=
  match listing with
  | [] => mret (stems, filenames)
  | filename :: listing' =>
      if has_audio_extension filename then
        audio ← from_file (os_path_join folder filename);
        load_stems folder listing' (stems ++ [audio]) (filenames ++ [filename])
      else load_stems folder listing' stems filenames
  end.

(** [for i, stem in enumerate(stems): main_mix = main_mix.overlay(stem)] *)
Fixpoint overlay_all (main_mix : AudioSegment) (stems : list AudioSegment)
  : result AudioSegment :=
  match stems with
  | [] => Ok main_mix
  | stem :: stems' =>
      match overlay main_mix stem with
      | Ok main_mix' => overlay_all main_mix' stems'
      | Raise e => Raise e
      end
  end.

(** [AudioSegment.silent(duration=stems[0].duration_seconds * 1000)] and the
    overlay loop, as both functions have them. *)
Definition build_mix (first : AudioSegment) (stems : list AudioSegment)
  : result AudioSegment :=
  overlay_all (silent (duration_seconds first * 1000)%Q 11025) stems.

(** [for filename, adjusted_stem in zip(filenames, adjusted_stems)] *)
Fixpoint export_all (output_folder : string)
    (pairs : list (string * AudioSegment)) : M unit :=
  match pairs with
  | [] => mret tt
  | (filename, adjusted_stem) :: pairs' =>
      export adjusted_stem output_folder filename;;
      export_all output_folder pairs'
  end.

Definition adjust_stems_in_folder (stems_folder : string)
    (target_loudness_LUFS : R) (output_base_folder : string) : M unit :=
  listing ← os_listdir stems_folder;
  '(stems, filenames) ← load_stems stems_folder listing [] [];
  match stems with
  | [] => print (NoAudioFilesFound stems_folder)
  | first :: _ =>
      main_mix ← lift (build_mix first stems);
      combined_loudness_LUFS ← lift (calculate_loudness main_mix);
      print (DetectedLoudness combined_loudness_LUFS);;
      let gain_adjustment_dB := (target_loudness_LUFS - combined_loudness_LUFS)%R in
      print (GainToApply gain_adjustment_dB);;
      let adjusted_stems := map (fun stem => adjust_gain stem gain_adjustment_dB) stems in
      let song_name := os_path_basename stems_folder in
      let output_folder_name :=
        (song_name +:+ "_" +:+ format_float lib target_loudness_LUFS +:+ "LUFS")%string in
      let output_folder := os_path_join output_base_folder output_folder_name in
      os_makedirs output_folder;;
      export_all output_folder (zip filenames adjusted_stems);;
      print (AdjustedStemsSaved output_folder)
  end.

(** The result is Python's [None] ([None] here) or the [bool] of
    [np.isclose]. On an empty list the f-string names [stems_folder], which
    is neither a parameter nor a global of the module: evaluating it raises
    before [print] is called. *)
Definition verify_output_loudness (output_folder : string)
    (target_loudness_LUFS : R) : M (option bool) :=
  listing ← os_listdir output_folder;
  '(stems, _) ← load_stems output_folder listing [] [];
  match stems with
  | [] => raise (NameError "stems_folder")
  | first :: _ =>
      main_mix ← lift (build_mix first stems);
      combined_loudness_LUFS ← lift (calculate_loudness main_mix);
      print (CombinedLoudness combined_loudness_LUFS);;
      mret (Some (np_isclose combined_loudness_LUFS target_loudness_LUFS
                             (1 / 100000) (1 / 10)))
  end.

End Program.

(** ** Comparing segments *)

(** Sample by sample, at most [tol] quantisation steps apart. *)
Definition within_tolerance (tol : Z) (a b : AudioSegment) : Prop :=
  Forall2 (fun x y => Z.abs (x - y) <= tol) (data a) (data b).

(** [fbound] leaves [v] inside the range: nothing is saturated. *)
Definition unclipped (width : Z) (v : R) : Prop :=
  (IZR (minval width) + 1 <= v <= IZR (maxval width))%R.

(** ** What a run leaves behind *)

(** The output folder of a run: [<base>/<song>_<target>LUFS]. *)
Definition output_folder_of (lib : Library) (stems_folder : string) (target : R)
    (output_base_folder : string) : string :=
  os_path_join output_base_folder
    (os_path_basename stems_folder +:+ "_" +:+ format_float lib target +:+ "LUFS")%string.

(** The files after [pairs] were exported, in order, into [folder]. *)
Definition exported (folder : string) (pairs : list (string * AudioSegment))
    (m : gmap string (list Z)) : gmap string (list Z) :=
  foldl (fun m p => <[os_path_join folder p.1 := wav_file p.2]> m) m pairs.

(** A name as [os.listdir] gives it does not start with a slash. *)
Definition plain_name (filename : string) : Prop :=
  String.prefix "/" filename = false.

(** [stems] are what the files of [folder] with an audio extension decode
    to, one for one and in listing order. *)
Definition discovers (lib : Library) (w : World) (folder : string)
    (listing : list string) (stems : list AudioSegment) : Prop :=
  Forall2 (fun fn stem => from_file lib (os_path_join folder fn) w = (Ok stem, w))
          (List.filter has_audio_extension listing) stems.

(** ** The mixing policy, in the words of the specification

    Overlaying [stem] on [canvas], sample by sample from time zero: where
    both have a sample the two are summed (and saturated), where the stem
    has ended the canvas stays as it is, and what the stem has beyond the
    end of the canvas is dropped. *)
Fixpoint overlaid (width : Z) (canvas stem : list Z) : list Z :=
  match canvas, stem with
  | [], _ => []
  | x :: canvas', [] => x :: canvas'
  | x :: canvas', y :: stem' => clip width (x + y) :: overlaid width canvas' stem'
  end.

(** One pass of the loop: canvas and stem are brought to their common
    format, the canvas is cut or filled to a whole number of milliseconds,
    and the stem is overlaid on it. *)
Definition overlay_step (lib : Library) (canvas stem mixed : AudioSegment) : Prop :=
  exists seg1 seg2 aligned,
    sync lib canvas stem = Ok (seg1, seg2)
    /\ getitem_slice seg1 0 (len_ms seg1) = Ok aligned
    /\ mixed = spawn seg1 (overlaid (sample_width seg1) (data aligned) (data seg2)).

Inductive mixes (lib : Library) : AudioSegment -> list AudioSegment -> AudioSegment -> Prop :=
| mixes_nil (canvas : AudioSegment) : mixes lib canvas [] canvas
| mixes_cons (canvas stem mixed mix : AudioSegment) (stems : list AudioSegment) :
    overlay_step lib canvas stem mixed ->
    mixes lib mixed stems mix ->
    mixes lib canvas (stem :: stems) mix.

(** A segment with at least one channel and a positive frame rate. *)
Definition playable (seg : AudioSegment) : Prop :=
  1 <= channels seg /\ 1 <= frame_rate seg.

(** The channel counts [set_channels] converts between without raising. *)
Definition convertible (from to : Z) : bool :=
  (to =? from) || (to =? 1) || (from =? 1).

(** Along the loop, starting from a canvas of [c] channels: whenever the mix
    so far and the next stem differ in channel count, the narrower is mono. *)
Fixpoint channels_agree (c : Z) (stems : list AudioSegment) : bool :=
  match stems with
  | [] => true
  | stem :: stems' =>
      let m := Z.max c (channels stem) in
      convertible c m && convertible (channels stem) m && channels_agree m stems'
  end.

(** ** What a call may touch *)

(** From [w] to [w'] no file changed but [folder/name] for a [name] of
    [names], and no directory but [folder]. *)
Definition writes_only (folder : string) (names : list string) (w w' : World) : Prop :=
  (forall path, path ∉ map (os_path_join folder) names ->
                files w' !! path = files w !! path)
  /\ (forall dir, dir <> folder -> dirs w' !! dir = dirs w !! dir).

(** Directories and files are the same; only standard output may differ. *)
Definition same_files (w w' : World) : Prop :=
  dirs w' = dirs w /\ files w' = files w.

(** ** Reading a WAV file back *)

(** A sample as [sf.read] returns it: divided by the full scale of its width. *)
Definition normalised (width s : Z) : R := (IZR s / IZR (2 ^ (8 * width - 1)))%R.

(** The widest of a default and the values [f] takes on the stems: what
    repeated [max] in [_sync] arrives at. *)
Definition widest (f : AudioSegment -> Z) (least : Z) (stems : list AudioSegment) : Z :=
  foldl Z.max least (map f stems).

(** A name without a slash, as a directory entry is. *)
Fixpoint slash_free (s : string) : bool :=
  match s with
  | EmptyString => true
  | String c s' => negb (Ascii.eqb c "/"%char) && slash_free s'
  end.

(** The world a run leaves when the output folder is new: the folder lists
    the discovered names, the files hold the stems after the gain, and
    three lines were printed. *)
Definition after_run (lib : Library) (w : World) (folder output_base_folder : string)
    (target : R) (listing : list string) (stems : list AudioSegment) (level : R) : World :=
  let names := List.filter has_audio_extension listing in
  let gain := (target - level)%R in
  let output_folder := output_folder_of lib folder target output_base_folder in
  mkWorld (<[output_folder := names]> (dirs w))
          (exported output_folder
                    (zip names (map (fun stem => adjust_gain stem gain) stems)) (files w))
          (stdout w ++ [DetectedLoudness level; GainToApply gain;
                        AdjustedStemsSaved output_folder]).

(** ** The batch driver and its window

    [process_folders] works on the button and the progress bar it is given,
    on the message boxes of tkinter and on the same disk and standard output
    as the two functions it calls. *)

Inductive button_state : Type := NORMAL | DISABLED.

(** The lines [process_folders] prints itself. *)
Inductive report : Type :=
| ProcessingFolder (path : string)
| VerificationPassed (path : string)
| VerificationFailed (path : string).

(** [messagebox.showinfo(title, message)] and
    [messagebox.showerror(title, f"An error occurred: {e}")] *)
Inductive dialog : Type :=
| showinfo (title message : string)
| showerror (title : string) (e : exn).

Record Desk : Type := mkDesk {
  disk_dirs : gmap string (list string);
  disk_files : gmap string (list Z);
  console : list (line + report);   (* standard output, both kinds of line *)
  button : button_state;
  progress_maximum : Z;
  progress_value : Z;
  dialogs : list dialog             (* the message boxes shown, oldest first *)
}.

Definition G (A : Type) : Type := Desk -> result A * Desk.

Global Instance G_ret : MRet G := fun A a d => (Ok a, d).
Global Instance G_bind : MBind G := fun A B k m d =>
  match m d with
  | (Ok a, d') => k a d'
  | (Raise e, d') => (Raise e, d')
  end.

(** The disk of a desk, as a call sees it. *)
Definition disk (d : Desk) : World := mkWorld (disk_dirs d) (disk_files d) [].

(** A call of one of the functions above: it sees the disk, and what it
    prints goes to the console. *)
Definition call {A} (m : M A) : G A :=
  fun d =>
    let '(r, w) := m (disk d) in
    (r, mkDesk (dirs w) (files w) (console d ++ (inl <$> stdout w))
               (button d) (progress_maximum d) (progress_value d) (dialogs d)).

Definition say (r : report) : G unit :=
  fun d => (Ok tt, mkDesk (disk_dirs d) (disk_files d) (console d ++ [inr r])
                          (button d) (progress_maximum d) (progress_value d) (dialogs d)).

(** [button.config(state=s)] *)
Definition button_config (s : button_state) : G unit :=
  fun d => (Ok tt, mkDesk (disk_dirs d) (disk_files d) (console d)
                          s (progress_maximum d) (progress_value d) (dialogs d)).

(** [progress["maximum"] = n] and [progress["value"] = n] *)
Definition set_progress_maximum (n : Z) : G unit :=
  fun d => (Ok tt, mkDesk (disk_dirs d) (disk_files d) (console d)
                          (button d) n (progress_value d) (dialogs d)).

Definition set_progress_value (n : Z) : G unit :=
  fun d => (Ok tt, mkDesk (disk_dirs d) (disk_files d) (console d)
                          (button d) (progress_maximum d) n (dialogs d)).

Definition messagebox (box : dialog) : G unit :=
  fun d => (Ok tt, mkDesk (disk_dirs d) (disk_files d) (console d)
                          (button d) (progress_maximum d) (progress_value d)
                          (dialogs d ++ [box])).

(** [os.path.isdir(path)] *)
Definition os_path_isdir (path : string) (d : Desk) : bool :=
  match disk_dirs d !! path with Some _ => true | None => false end.

(** [[p for p in paths if os.path.isdir(p)]] *)
Definition keep_folders (paths : list string) : G (list string) :=
  fun d => (Ok (List.filter (fun p => os_path_isdir p d) paths), d).

(** [try: body / except Exception as e: handler(e)]: every exception of the
    model derives from [Exception]. *)
Definition try_except (body : G unit) (handler : exn -> G unit) : G unit :=
  fun d => match body d with
           | (Raise e, d') => handler e d'
           | done => done
           end.

(** [try: body / finally: cleanup] *)
Definition try_finally (body cleanup : G unit) : G unit :=
  fun d => let '(r, d') := body d in
           match cleanup d' with
           | (Ok _, d'') => (r, d'')
           | raised => raised
           end.

(** [if x:] on what [verify_output_loudness] returns: [None] and
    [numpy.False_] are false. *)
Definition truthy (x : option bool) : bool :=
  match x with Some true => true | _ => false end.

Section Driver.

Context (lib : Library).

(** The list comprehension over [os.listdir(input_folder)]. *)
Definition list_subfolders (input_folder : string) : G (list string) :=
  entries ← call (os_listdir input_folder);
  keep_folders (map (os_path_join input_folder) entries).

(** [for i, subfolder_path in enumerate(subfolders, 1)] *)
Fixpoint process_each (output_folder : string) (target_loudness_LUFS : R)
    (i : Z) (subfolders : list string) : G unit :=
  match subfolders with
  | [] => mret tt
  | subfolder_path :: subfolders' =>
      say (ProcessingFolder subfolder_path);;
      call (adjust_stems_in_folder lib subfolder_path target_loudness_LUFS output_folder);;
      let output_folder_name :=
        (os_path_basename subfolder_path +:+ "_"
         +:+ format_float lib target_loudness_LUFS +:+ "LUFS")%string in
      let output_subfolder := os_path_join output_folder output_folder_name in
      passed ← call (verify_output_loudness lib output_subfolder target_loudness_LUFS);
      (if truthy passed then say (VerificationPassed output_subfolder)
       else say (VerificationFailed output_subfolder));;
      set_progress_value i;;
      (* progress.update_idletasks() redraws the bar *)
      process_each output_folder target_loudness_LUFS (i + 1) subfolders'
  end.

Definition process_folders (input_folder output_folder : string)
    (target_loudness_LUFS : R) : G unit :=
  button_config DISABLED;;
  try_finally
    (try_except
       (subfolders ← list_subfolders input_folder;
        let total_subfolders := Z.of_nat (length subfolders) in
        set_progress_maximum total_subfolders;;
        process_each output_folder target_loudness_LUFS 1 subfolders;;
        messagebox (showinfo "Success" "All stems have been processed successfully."))
       (fun e => messagebox (showerror "Error" e)))
    (button_config NORMAL;;
     set_progress_value 0).

End Driver.

(** The subfolders a batch visits: the entries of the input folder that are
    directories, as paths. *)
Definition subfolders_of (input_folder : string) (d : Desk) : list string :=
  List.filter (fun p => os_path_isdir p d)
              (map (os_path_join input_folder) (default [] (disk_dirs d !! input_folder))).

(** The folders that got a verdict, in the order of the console. *)
Definition verdicts (c : list (line + report)) : list string :=
  omap (fun l => match l with
                 | inr (VerificationPassed p) | inr (VerificationFailed p) => Some p
                 | _ => None
                 end) c.

Definition success : dialog :=
  showinfo "Success" "All stems have been processed successfully.".

(** What the loop leaves alone: button, maximum and message boxes. *)
Definition same_window (d d' : Desk) : Prop :=
  button d' = button d /\ progress_maximum d' = progress_maximum d
  /\ dialogs d' = dialogs d.

(** ** Fixtures for the examples

    A decoder that reads the WAV files the program itself writes, a meter
    that reports one level for every signal, and stand-ins for the resampler
    and the down-mix, which no example reaches: the stems agree with the
    silent canvas in channel count, and where the frame rates differ the
    canvas is empty. *)

Definition wav_decode (path : string) (b : list Z) : option AudioSegment :=
  match sf_read b with
  | Ok _ =>
      let bits := field b 34 2 in
      let width := Z.to_nat (bits / 8) in
      let pcm := firstn (Z.to_nat (field b 40 4)) (skipn 44 b) in
      Some (mkSeg (bits / 8) (field b 24 4) (field b 22 2)
                  (map (to_signed bits)
                       (read_samples width (length pcm / width)%nat pcm)))
  | Raise _ => None
  end.

Definition test_library (level : R) : Library :=
  mkLibrary wav_decode (fun d _ _ _ _ => d) (fun d _ _ => d)
            (fun _ _ _ => Ok level) (fun _ => "-14.0"%string).

(** 22 frames at 11025 Hz, which is what 2 ms hold. *)
Definition drums : AudioSegment :=
  mkSeg 2 11025 1 (repeat 1000 11 ++ repeat (-1000) 11).

Definition vocals : AudioSegment :=
  mkSeg 2 11025 1 (repeat 300 8).

(** The mix of [drums] and [vocals]: the first eight frames carry both. *)
Definition drums_and_vocals : AudioSegment :=
  mkSeg 2 11025 1 (repeat 1300 8 ++ repeat 1000 3 ++ repeat (-1000) 11).

(** One second and three frames at 11025 Hz, and what a mix keeps of them:
    one second. *)
Definition beat : AudioSegment := mkSeg 2 11025 1 (repeat 500 (Z.to_nat 11028)).
Definition beat_mix : AudioSegment := mkSeg 2 11025 1 (repeat 500 (Z.to_nat 11025)).

(** One frame at 44100 Hz, and what a mix keeps of it: nothing. *)
Definition tick : AudioSegment := mkSeg 2 44100 1 [500].
Definition tick_mix : AudioSegment := mkSeg 2 44100 1 [].

(** One sample near full scale. *)
Definition loud : AudioSegment := mkSeg 2 11025 1 [20000].

(** A song folder: two stems and a text file. *)
Definition song_listing : list string := ["drums.wav"; "notes.txt"; "vocals.MP3"]%string.

Definition song_world : World :=
  mkWorld {[ "in/song"%string := song_listing ]}
          {[ "in/song/drums.wav"%string := wav_file drums;
             "in/song/notes.txt"%string := [104; 105];
             "in/song/vocals.MP3"%string := wav_file vocals ]}
          [].

(** An output folder that holds two stems. *)
Definition written_listing : list string := ["drums.wav"; "vocals.MP3"]%string.

Definition written_world : World :=
  mkWorld {[ "out/song_-14.0LUFS"%string := written_listing ]}
          {[ "out/song_-14.0LUFS/drums.wav"%string := wav_file drums;
             "out/song_-14.0LUFS/vocals.MP3"%string := wav_file vocals ]}
          [].

(** An output folder that holds no audio file. *)
Definition notes_world : World :=
  mkWorld {[ "out/song_-14.0LUFS"%string := ["notes.txt"]%string ]}
          {[ "out/song_-14.0LUFS/notes.txt"%string := [104; 105] ]}
          [].

(** A song folder one of whose files is not audio inside. *)
Definition broken_world : World :=
  mkWorld {[ "in/song"%string := ["drums.wav"; "broken.flac"; "vocals.MP3"]%string ]}
          {[ "in/song/drums.wav"%string := wav_file drums;
             "in/song/broken.flac"%string := [102; 76; 97; 67];
             "in/song/vocals.MP3"%string := wav_file vocals ]}
          [].

(** Desks for the examples: a window at rest over an empty disk, over a
    song folder, and over an input folder whose one subfolder holds no
    audio. *)
Definition at_rest (ds : gmap string (list string)) (fs : gmap string (list Z)) : Desk :=
  mkDesk ds fs [] NORMAL 100 0 [].

Definition empty_desk : Desk := at_rest ∅ ∅.

Definition song_desk : Desk := at_rest (dirs song_world) (files song_world).

Definition notes_desk : Desk :=
  at_rest {[ "in"%string := ["notes"]%string; "in/notes"%string := ["notes.txt"]%string ]}
          {[ "in/notes/notes.txt"%string := [104; 105] ]}.

(** An input folder with one song in it. *)
Definition batch_desk : Desk :=
  at_rest (<[ "in"%string := ["song"]%string ]> (dirs song_world)) (files song_world).

(** What the run on that song leaves, measured at the target of -14 LUFS. *)
Definition song_written : World :=
  after_run (test_library (-14)) (disk batch_desk) "in/song" "out" (-14)
            song_listing [drums; vocals] (-14).

(** A meter that refuses every signal, as pyloudnorm refuses one shorter
    than its 400 ms block. *)
Definition deaf_library : Library :=
  mkLibrary wav_decode (fun d _ _ _ _ => d) (fun d _ _ => d)
            (fun _ _ _ => Raise ValueError) (fun _ => "-14.0"%string).

(** A disk on which the path of the output folder is taken by a file. *)
Definition blocked_world : World :=
  mkWorld (dirs song_world)
          (<[ "out/song_-14.0LUFS"%string := [104; 105] ]> (files song_world))
          [].

(** * Properties *)

(** ** Running the monad *)

Lemma bind_run {A B} (m : M A) (k : A -> M B) (w w' : World) (a : A) :
  m w = (Ok a, w') -> (m ≫= k) w = k a w'.
Proof. intros H. unfold mbind, M_bind, bind. now rewrite H. Qed.

Lemma bind_raise {A B} (m : M A) (k : A -> M B) (w w' : World) (e : exn) :
  m w = (Raise e, w') -> (m ≫= k) w = (Raise e, w').
Proof. intros H. unfold mbind, M_bind, bind. now rewrite H. Qed.

Lemma os_listdir_run (path : string) (w : World) (entries : list string) :
  dirs w !! path = Some entries -> os_listdir path w = (Ok entries, w).
Proof. intros H. unfold os_listdir. now rewrite H. Qed.

(** ** Discovery *)

Section Discovery.

Context (lib : Library).

(** What the loop returns when every file with an audio extension decodes:
    the decoded stems and their names, both in listing order. *)
Lemma load_stems_run (folder : string) (w : World) (listing : list string) :
  forall (new acc_stems : list AudioSegment) (acc_names : list string),
    Forall2 (fun fn s => from_file lib (os_path_join folder fn) w = (Ok s, w))
            (List.filter has_audio_extension listing) new ->
    load_stems lib folder listing acc_stems acc_names w
    = (Ok (acc_stems ++ new, acc_names ++ List.filter has_audio_extension listing), w).
Proof.
  induction listing as [|fn listing IH]; intros new acc_stems acc_names Hall; simpl in *.
  - inversion Hall; subst. now rewrite !app_nil_r.
  - destruct (has_audio_extension fn) eqn:Hext.
    + inversion Hall as [|? s ? new' Hfile Hrest]; subst.
      rewrite (bind_run _ _ _ _ _ Hfile).
      rewrite (IH new' _ _ Hrest).
      now rewrite <- !app_assoc.
    + now apply IH.
Qed.

Lemma filter_no_audio (listing : list string) :
  Forall (fun fn => has_audio_extension fn = false) listing ->
  List.filter has_audio_extension listing = [].
Proof.
  induction 1 as [|fn listing Hfn _ IH]; simpl; [reflexivity|].
  now rewrite Hfn.
Qed.

Lemma load_stems_no_audio (folder : string) (w : World) (listing : list string) :
  Forall (fun fn => has_audio_extension fn = false) listing ->
  load_stems lib folder listing [] [] w = (Ok ([], []), w).
Proof.
  intros Hnone.
  rewrite (load_stems_run folder w listing [] [] []).
  - now rewrite (filter_no_audio _ Hnone).
  - rewrite (filter_no_audio _ Hnone). constructor.
Qed.

(** C6. A folder with no file of a recognised audio extension: the pipeline
    prints "No audio files found in <folder>", returns normally, and leaves
    directories and files as they were, so no output folder appears. *)
Theorem no_audio_files_found (w : World) (stems_folder output_base_folder : string)
    (target : R) (listing : list string) :
  dirs w !! stems_folder = Some listing ->
  Forall (fun fn => has_audio_extension fn = false) listing ->
  adjust_stems_in_folder lib stems_folder target output_base_folder w
  = (Ok tt, mkWorld (dirs w) (files w) (stdout w ++ [NoAudioFilesFound stems_folder])).
Proof.
  intros Hdir Hnone. unfold adjust_stems_in_folder.
  rewrite (bind_run _ _ _ _ _ (os_listdir_run _ _ _ Hdir)).
  rewrite (bind_run _ _ _ _ _ (load_stems_no_audio _ _ _ Hnone)).
  reflexivity.
Qed.

(** The verifier on such a folder: the f-string of its empty-list branch
    names [stems_folder], and the call ends in a [NameError]. *)
Lemma verify_no_audio_raises (w : World) (output_folder : string) (target : R)
    (listing : list string) :
  dirs w !! output_folder = Some listing ->
  Forall (fun fn => has_audio_extension fn = false) listing ->
  verify_output_loudness lib output_folder target w
  = (Raise (NameError "stems_folder"), w).
Proof.
  intros Hdir Hnone. unfold verify_output_loudness.
  rewrite (bind_run _ _ _ _ _ (os_listdir_run _ _ _ Hdir)).
  rewrite (bind_run _ _ _ _ _ (load_stems_no_audio _ _ _ Hnone)).
  reflexivity.
Qed.

End Discovery.

Lemma no_audio_files_found_witness :
  adjust_stems_in_folder (test_library 0) "out/song_-14.0LUFS" (-14) "out" notes_world
  = (Ok tt, mkWorld (dirs notes_world) (files notes_world)
                    [NoAudioFilesFound "out/song_-14.0LUFS"]).
Proof.
  apply (no_audio_files_found (test_library 0) notes_world "out/song_-14.0LUFS" "out"
                              (-14) ["notes.txt"%string]).
  - reflexivity.
  - repeat constructor.
Defined.

(** C4. An output folder that holds only [notes.txt]: the verifier neither
    returns [None] nor prints; it raises [NameError]. *)
Example verify_empty_folder_raises :
  verify_output_loudness (test_library 0) "out/song_-14.0LUFS" (-14) notes_world
  = (Raise (NameError "stems_folder"), notes_world).
Proof.
  apply (verify_no_audio_raises _ _ _ _ ["notes.txt"%string]).
  - reflexivity.
  - repeat constructor.
Qed.

(** ** The WAV round trip *)

Lemma le_bytes_length (n : nat) (v : Z) : length (le_bytes n v) = n.
Proof. revert v. induction n as [|n IH]; intros v; simpl; [reflexivity|]. now rewrite IH. Qed.

Lemma le_value_le_bytes (n : nat) (v : Z) :
  0 <= v < 256 ^ Z.of_nat n -> le_value (le_bytes n v) = v.
Proof.
  revert v. induction n as [|n IH]; intros v Hv.
  - simpl in *. lia.
  - change (le_value (le_bytes (S n) v))
      with (v mod 256 + 256 * le_value (le_bytes n (v / 256))).
    rewrite Nat2Z.inj_succ, Z.pow_succ_r in Hv by lia.
    rewrite IH.
    + pose proof (Z.div_mod v 256). lia.
    + split.
      * apply Z.div_pos; lia.
      * apply Z.div_lt_upper_bound; lia.
Qed.

Lemma fits_spec (bits v : Z) : fits bits v = true <-> 0 <= v < 2 ^ bits.
Proof. unfold fits. rewrite andb_true_iff, Z.leb_le, Z.ltb_lt. reflexivity. Qed.

Lemma export_wav_ok (seg : AudioSegment) :
  wav_exportable seg = true -> export_wav seg = Ok (wav_file seg).
Proof.
  unfold wav_exportable, export_wav. rewrite !andb_true_iff, !Z.leb_le.
  intros [[[[Hch Hw1] Hw4] Hr] Hfit].
  destruct (channels seg <? 1) eqn:E1; [apply Z.ltb_lt in E1; lia|].
  destruct (sample_width seg <? 1) eqn:E2; [apply Z.ltb_lt in E2; lia|].
  destruct (4 <? sample_width seg) eqn:E3; [apply Z.ltb_lt in E3; lia|].
  destruct (frame_rate seg <=? 0) eqn:E4; [apply Z.leb_le in E4; lia|].
  simpl. now rewrite Hfit.
Qed.

Lemma export_wav_inv (seg : AudioSegment) (bytes : list Z) :
  export_wav seg = Ok bytes -> wav_exportable seg = true /\ bytes = wav_file seg.
Proof.
  unfold wav_exportable, export_wav.
  destruct (channels seg <? 1) eqn:E1; [discriminate|].
  destruct (sample_width seg <? 1) eqn:E2; [discriminate|].
  destruct (4 <? sample_width seg) eqn:E3; [discriminate|].
  destruct (frame_rate seg <=? 0) eqn:E4; [discriminate|].
  simpl. destruct (header_fits seg) eqn:E5; [|discriminate].
  intros [= <-]. split; [|reflexivity].
  apply Z.ltb_ge in E1, E2, E3. apply Z.leb_gt in E4.
  rewrite !andb_true_iff, !Z.leb_le. repeat split; lia.
Qed.

(** The header fields, read back at the offsets [sf_read] uses. *)
Lemma wav_file_fields (seg : AudioSegment) :
  firstn 4 (wav_file seg) = RIFF
  /\ firstn 4 (skipn 8 (wav_file seg)) = WAVE
  /\ firstn 4 (skipn 12 (wav_file seg)) = fmt_
  /\ firstn 4 (skipn 36 (wav_file seg)) = data_
  /\ field (wav_file seg) 20 2 = 1
  /\ field (wav_file seg) 22 2 = le_value (le_bytes 2 (channels seg))
  /\ field (wav_file seg) 24 4 = le_value (le_bytes 4 (frame_rate seg))
  /\ field (wav_file seg) 34 2 = le_value (le_bytes 2 (sample_width seg * 8)).
Proof. repeat split; reflexivity. Qed.

(** A file [export_wav] wrote reads back with the channel count and the
    frame rate of the segment it was written from. *)
Lemma sf_read_wav_file (seg : AudioSegment) :
  wav_exportable seg = true ->
  exists samples,
    sf_read (wav_file seg) = Ok (mkSound (channels seg) samples, frame_rate seg).
Proof.
  intros Hok.
  destruct (wav_file_fields seg) as (H1 & H2 & H3 & H4 & H5 & H6 & H7 & H8).
  unfold wav_exportable, header_fits in Hok.
  rewrite !andb_true_iff, !Z.leb_le, !fits_spec in Hok.
  destruct Hok as [[[[Hch Hw1] Hw4] Hr] [[[[_ Hfc] Hfr] _] _]].
  rewrite le_value_le_bytes in H6 by (change (256 ^ Z.of_nat 2) with (2 ^ 16); lia).
  rewrite le_value_le_bytes in H7 by (change (256 ^ Z.of_nat 4) with (2 ^ 32); lia).
  rewrite le_value_le_bytes in H8 by (change (256 ^ Z.of_nat 2) with 65536; lia).
  unfold sf_read. rewrite H1, H2, H3, H4, H5, H6, H7, H8.
  rewrite !bool_decide_eq_true_2 by reflexivity.
  assert (Hbits : existsb (Z.eqb (sample_width seg * 8)) [8; 16; 24; 32] = true).
  { assert (Hw : sample_width seg = 1 \/ sample_width seg = 2
                 \/ sample_width seg = 3 \/ sample_width seg = 4) by lia.
    destruct Hw as [-> | [-> | [-> | ->]]]; reflexivity. }
  rewrite Hbits.
  assert (Hone : (1 <=? channels seg) = true) by (apply Z.leb_le; lia).
  rewrite Hone. simpl. eexists. reflexivity.
Qed.

(** C9. [calculate_loudness] asserts that the frame rate of the segment
    equals the rate [sf.read] finds in the exported WAV bytes. Whenever the
    export succeeds, the bytes read back with that very rate: the assertion
    holds, and the result is what the meter, built for this rate, returns
    for the samples read. *)
Theorem sample_rate_survives_export (lib : Library) (seg : AudioSegment)
    (audio_bytes : list Z) :
  export_wav seg = Ok audio_bytes ->
  exists data,
    sf_read audio_bytes = Ok (data, frame_rate seg)
    /\ calculate_loudness lib seg
       = integrated_loudness lib (frame_rate seg) (sound_channels data) (sound_samples data).
Proof.
  intros Hexp.
  destruct (export_wav_inv _ _ Hexp) as [Hok ->].
  destruct (sf_read_wav_file seg Hok) as [samples Hread].
  exists (mkSound (channels seg) samples). split; [exact Hread|].
  unfold calculate_loudness. rewrite Hexp, Hread, Z.eqb_refl. reflexivity.
Qed.

Lemma sample_rate_survives_export_witness :
  exists data,
    sf_read (wav_file drums) = Ok (data, 11025)
    /\ calculate_loudness (test_library (-20)) drums
       = integrated_loudness (test_library (-20)) 11025
                             (sound_channels data) (sound_samples data).
Proof.
  apply (sample_rate_survives_export (test_library (-20)) drums (wav_file drums)).
  reflexivity.
Defined.

(** ** Gain *)

Local Open Scope R_scope.

Lemma db_to_float_0 : db_to_float 0 = 1.
Proof. unfold db_to_float. replace (0 / 20) with 0 by lra. apply Rpower_O. lra. Qed.

Lemma db_to_float_20 : db_to_float 20 = 10.
Proof. unfold db_to_float. replace (20 / 20) with 1 by lra. apply Rpower_1. lra. Qed.

Lemma db_to_float_minus_20 : db_to_float (-20) = / 10.
Proof.
  unfold db_to_float. replace (-20 / 20) with (Ropp 1) by lra.
  rewrite Rpower_Ropp, Rpower_1 by lra. reflexivity.
Qed.

Lemma db_to_float_pos (g : R) : 0 < db_to_float g.
Proof. unfold db_to_float, Rpower. apply exp_pos. Qed.

Lemma db_to_float_plus (g1 g2 : R) :
  db_to_float (g1 + g2) = db_to_float g1 * db_to_float g2.
Proof.
  unfold db_to_float. replace ((g1 + g2) / 20) with (g1 / 20 + g2 / 20) by lra.
  apply Rpower_plus.
Qed.

(** A value inside the range is only rounded down. *)
Lemma fbound_inside (v : R) (lo hi : Z) :
  IZR lo + 1 <= v <= IZR hi -> fbound v lo hi = Zfloor v.
Proof.
  intros [Hlo Hhi]. unfold fbound.
  destruct (Rlt_dec (IZR hi) v) as [H|_]; [lra|].
  destruct (Rlt_dec v (IZR lo + 1)) as [H|_]; [lra|]. reflexivity.
Qed.

Lemma fbound_above (v : R) (lo hi : Z) : IZR hi < v -> fbound v lo hi = hi.
Proof.
  intros H. unfold fbound.
  destruct (Rlt_dec (IZR hi) v) as [_|Hn]; [apply ZfloorZ | lra].
Qed.

Lemma fbound_sample (s lo hi : Z) : (lo <= s <= hi)%Z -> fbound (IZR s) lo hi = s.
Proof.
  intros [Hlo Hhi]. unfold fbound.
  destruct (Rlt_dec (IZR hi) (IZR s)) as [H|_].
  { apply lt_IZR in H. lia. }
  destruct (Rlt_dec (IZR s) (IZR lo + 1)) as [H|_]; [|apply ZfloorZ].
  rewrite <- plus_IZR in H. apply lt_IZR in H.
  rewrite ZfloorZ. lia.
Qed.

Lemma audioop_mul_1 (d : list Z) (width : Z) :
  Forall (sample_ok width) d -> audioop_mul d width 1 = d.
Proof.
  unfold audioop_mul.
  induction 1 as [|s d Hs _ IH]; [reflexivity|].
  rewrite map_cons, IH, Rmult_1_r.
  now rewrite (fbound_sample s _ _ Hs).
Qed.

(** C7. A gain of 0 dB multiplies by [10 ** 0 = 1] and gives back the stem,
    sample for sample. *)
Theorem zero_gain_is_identity (stem : AudioSegment) :
  samples_ok stem -> adjust_gain stem 0 = stem.
Proof.
  intros Hok. unfold adjust_gain, apply_gain, spawn.
  rewrite db_to_float_0, (audioop_mul_1 _ _ Hok).
  now destruct stem.
Qed.

Lemma samples_ok_vocals : samples_ok vocals.
Proof.
  unfold samples_ok, vocals; simpl.
  repeat (constructor; [split; intro; discriminate|]). constructor.
Qed.

Lemma loud_unchanged_at_0dB : adjust_gain loud 0 = loud.
Proof.
  unfold adjust_gain, apply_gain, spawn.
  rewrite db_to_float_0, audioop_mul_1; [reflexivity|].
  repeat constructor; intro; discriminate.
Qed.

Lemma zero_gain_is_identity_witness : adjust_gain vocals 0 = vocals.
Proof. apply (zero_gain_is_identity vocals). exact samples_ok_vocals. Defined.

(** Two gains in a row against their sum, on one sample, when neither step
    saturates. *)
Lemma compose_sample (s lo hi : Z) (f1 f2 : R) :
  0 < f2 ->
  IZR lo + 1 <= IZR s * f1 <= IZR hi ->
  IZR lo + 1 <= IZR (Zfloor (IZR s * f1)) * f2 <= IZR hi ->
  (fbound (IZR (fbound (IZR s * f1) lo hi) * f2) lo hi
   <= fbound (IZR s * (f1 * f2)) lo hi)%Z
  /\ IZR (fbound (IZR s * (f1 * f2)) lo hi)
     < IZR (fbound (IZR (fbound (IZR s * f1) lo hi) * f2) lo hi) + f2 + 1.
Proof.
  intros Hf2 H1 H2.
  rewrite (fbound_inside _ _ _ H1), (fbound_inside _ _ _ H2).
  pose proof (Zfloor_bound (IZR s * f1)) as [Ha1 Ha2].
  pose proof (Zfloor_bound (IZR (Zfloor (IZR s * f1)) * f2)) as [Hb1 Hb2].
  set (A := Zfloor (IZR s * f1)) in *.
  set (B := Zfloor (IZR A * f2)) in *.
  rewrite <- Rmult_assoc.
  assert (Hle : IZR A * f2 <= IZR s * f1 * f2)
    by (apply Rmult_le_compat_r; lra).
  assert (Hlt : IZR s * f1 * f2 < IZR A * f2 + f2).
  { replace (IZR A * f2 + f2) with ((IZR A + 1) * f2) by ring.
    apply Rmult_lt_compat_r; lra. }
  unfold fbound.
  destruct (Rlt_dec (IZR hi) (IZR s * f1 * f2)) as [Hhi|Hhi].
  - rewrite ZfloorZ. split; [|lra].
    apply le_IZR. lra.
  - destruct (Rlt_dec (IZR s * f1 * f2) (IZR lo + 1)) as [Hlo|Hlo]; [lra|].
    pose proof (Zfloor_bound (IZR s * f1 * f2)) as [Hc1 Hc2].
    split; [|lra].
    assert (Hbc : IZR B < IZR (Zfloor (IZR s * f1 * f2)) + 1) by lra.
    rewrite <- plus_IZR in Hbc. apply lt_IZR in Hbc. lia.
Qed.




Local Close Scope R_scope.

(** ** Exporting *)

Lemma pcm_for_wav_length (seg : AudioSegment) :
  length (pcm_for_wav seg) = (Z.to_nat (sample_width seg) * length (data seg))%nat.
Proof.
  unfold pcm_for_wav. induction (data seg) as [|s d IH]; simpl; [lia|].
  rewrite length_app, le_bytes_length, IH. lia.
Qed.

Lemma wav_exportable_apply_gain (seg : AudioSegment) (g : R) :
  wav_exportable (apply_gain seg g) = wav_exportable seg.
Proof.
  unfold wav_exportable, header_fits. rewrite !pcm_for_wav_length.
  unfold apply_gain, audioop_mul. simpl. now rewrite length_map.
Qed.

Lemma export_run (seg : AudioSegment) (folder filename : string) (w : World) :
  is_Some (dirs w !! folder) ->
  wav_exportable seg = true ->
  exists w', export seg folder filename w = (Ok tt, w')
             /\ files w' = <[os_path_join folder filename := wav_file seg]> (files w)
             /\ stdout w' = stdout w
             /\ is_Some (dirs w' !! folder).
Proof.
  intros [entries Hdir] Hok. unfold export.
  unfold mbind, M_bind, bind, write_file. rewrite Hdir, (export_wav_ok _ Hok). simpl.
  rewrite lookup_insert_eq. eexists. split; [reflexivity|]. simpl.
  rewrite insert_insert_eq, lookup_insert_eq. eauto.
Qed.

Lemma export_all_run (folder : string) (pairs : list (string * AudioSegment)) :
  forall w : World,
    is_Some (dirs w !! folder) ->
    Forall (fun p => wav_exportable p.2 = true) pairs ->
    exists w', export_all folder pairs w = (Ok tt, w')
               /\ files w' = exported folder pairs (files w)
               /\ stdout w' = stdout w.
Proof.
  induction pairs as [|[fn seg] pairs IH]; intros w Hdir Hall.
  - exists w. repeat split.
  - inversion Hall as [|? ? Hseg Hrest]; subst. simpl in Hseg.
    destruct (export_run seg folder fn w Hdir Hseg) as (w1 & Hrun & Hfiles & Hout & Hdir1).
    destruct (IH w1 Hdir1 Hrest) as (w2 & Hrun2 & Hfiles2 & Hout2).
    exists w2. simpl. rewrite (bind_run _ _ _ _ _ Hrun), Hrun2.
    split; [reflexivity|]. rewrite Hfiles2, Hfiles, Hout2, Hout. split; reflexivity.
Qed.

Lemma os_makedirs_run (path : string) (w : World) :
  files w !! path = None ->
  exists w', os_makedirs path w = (Ok tt, w')
             /\ files w' = files w /\ stdout w' = stdout w
             /\ is_Some (dirs w' !! path).
Proof.
  intros Hfile. unfold os_makedirs. rewrite Hfile.
  destruct (dirs w !! path) as [entries|] eqn:Hdir.
  - exists w. rewrite Hdir. eauto.
  - eexists. split; [reflexivity|]. simpl. rewrite lookup_insert_eq. eauto.
Qed.

(** ** Looking a written file up *)

Lemma exported_lookup_other (folder : string) (pairs : list (string * AudioSegment)) :
  forall (m : gmap string (list Z)) (path : string),
    path ∉ map (fun p => os_path_join folder p.1) pairs ->
    exported folder pairs m !! path = m !! path.
Proof.
  induction pairs as [|[fn seg] pairs IH]; intros m path Hnot; [reflexivity|].
  simpl in Hnot. apply not_elem_of_cons in Hnot as [Hne Hnot].
  unfold exported in *. simpl. rewrite (IH _ _ Hnot).
  now rewrite lookup_insert_ne.
Qed.

Lemma exported_lookup (folder : string) (pairs : list (string * AudioSegment)) :
  forall (m : gmap string (list Z)) (i : nat) (fn : string) (seg : AudioSegment),
    NoDup (map (fun p => os_path_join folder p.1) pairs) ->
    pairs !! i = Some (fn, seg) ->
    exported folder pairs m !! os_path_join folder fn = Some (wav_file seg).
Proof.
  induction pairs as [|[fn0 seg0] pairs IH]; intros m i fn seg Hnd Hi; [discriminate|].
  simpl in Hnd. apply NoDup_cons in Hnd as [Hnot Hnd].
  destruct i as [|i]; simpl in Hi.
  - injection Hi as -> ->.
    change (exported folder ((fn, seg) :: pairs) m)
      with (exported folder pairs (<[os_path_join folder fn := wav_file seg]> m)).
    rewrite (exported_lookup_other _ _ _ _ Hnot). apply lookup_insert_eq.
  - change (exported folder ((fn0, seg0) :: pairs) m)
      with (exported folder pairs (<[os_path_join folder fn0 := wav_file seg0]> m)).
    now apply (IH _ i).
Qed.

Lemma os_path_join_inj (folder a b : string) :
  plain_name a -> plain_name b ->
  os_path_join folder a = os_path_join folder b -> a = b.
Proof.
  unfold plain_name, os_path_join. intros -> ->.
  destruct (String.eqb folder "" || endswith folder "/")%bool.
  - apply String.app_inj.
  - intros H. apply String.app_inj in H. now apply String.app_inj in H.
Qed.

Lemma zip_keys (folder : string) (names : list string) :
  forall adjusted : list AudioSegment,
    length names = length adjusted ->
    map (fun p => os_path_join folder p.1) (zip names adjusted)
    = map (os_path_join folder) names.
Proof.
  induction names as [|fn names IH]; intros [|seg adjusted] Hlen;
    try discriminate; [reflexivity|].
  simpl. f_equal. apply IH. simpl in Hlen. lia.
Qed.

Lemma zip_lookup (names : list string) (f : AudioSegment -> AudioSegment) :
  forall (stems : list AudioSegment) (i : nat) (fn : string) (stem : AudioSegment),
    names !! i = Some fn -> stems !! i = Some stem ->
    zip names (map f stems) !! i = Some (fn, f stem).
Proof.
  induction names as [|fn0 names IH]; intros [|s0 stems] [|i] fn stem Hn Hs;
    try discriminate; simpl in *.
  - now injection Hn as ->; injection Hs as ->.
  - now apply IH.
Qed.

Lemma keys_NoDup (folder : string) (names : list string) :
  NoDup names -> Forall plain_name names ->
  NoDup (map (os_path_join folder) names).
Proof.
  intros Hnd Hplain. apply (NoDup_fmap_2_strong (os_path_join folder)); [|exact Hnd].
  intros a b Ha Hb. rewrite Forall_forall in Hplain.
  apply os_path_join_inj; apply Hplain; assumption.
Qed.

Lemma filter_NoDup (names : list string) :
  NoDup names -> NoDup (List.filter has_audio_extension names).
Proof.
  induction 1 as [|fn names Hnot _ IH]; simpl; [constructor|].
  destruct (has_audio_extension fn); [|exact IH].
  constructor; [|exact IH].
  intros Hin. apply Hnot. apply list_elem_of_In in Hin.
  apply filter_In in Hin as [Hin _]. now apply list_elem_of_In.
Qed.

Lemma filter_plain (names : list string) :
  Forall plain_name names -> Forall plain_name (List.filter has_audio_extension names).
Proof.
  induction 1 as [|fn names Hfn _ IH]; simpl; [constructor|].
  destruct (has_audio_extension fn); [constructor|]; assumption.
Qed.

(** ** A run that finds stems *)

Lemma print_run (l : line) (w : World) :
  print l w = (Ok tt, mkWorld (dirs w) (files w) (stdout w ++ [l])).
Proof. reflexivity. Qed.

Lemma lift_run {A} (r : result A) (a : A) (w : World) :
  r = Ok a -> lift r w = (Ok a, w).
Proof. intros ->. reflexivity. Qed.

Lemma np_isclose_spec (a b rtol atol : R) :
  np_isclose a b rtol atol = true <-> (Rabs (a - b) <= atol + rtol * Rabs b)%R.
Proof.
  unfold np_isclose. destruct (Rle_dec _ _) as [H|H]; split; intros H';
    try reflexivity; try assumption; try discriminate. contradiction.
Qed.

Lemma exportable_pairs (g : R) (stems : list AudioSegment) :
  Forall (fun stem => wav_exportable stem = true) stems ->
  forall names : list string,
    Forall (fun p => wav_exportable p.2 = true)
           (zip names (map (fun stem => adjust_gain stem g) stems)).
Proof.
  induction 1 as [|stem l Hstem _ IH]; intros [|fn fns]; try (now constructor).
  change (Forall (fun p => wav_exportable p.2 = true)
            ((fn, adjust_gain stem g)
             :: zip fns (map (fun stem => adjust_gain stem g) l))).
  constructor; [|apply IH].
  simpl. unfold adjust_gain. now rewrite wav_exportable_apply_gain.
Qed.

Section Run.

Context (lib : Library).
Variables (w : World) (folder : string) (target : R).
Variables (listing : list string) (first : AudioSegment) (rest : list AudioSegment).
Variables (mix : AudioSegment) (level : R).

Let stems := first :: rest.
Let names := List.filter has_audio_extension listing.

Hypothesis Hdir : dirs w !! folder = Some listing.
Hypothesis Hdisc : discovers lib w folder listing stems.
Hypothesis Hmix : build_mix lib first stems = Ok mix.
Hypothesis Hlevel : calculate_loudness lib mix = Ok level.

Lemma discovery_run :
  load_stems lib folder listing [] [] w = (Ok (stems, names), w).
Proof. exact (load_stems_run lib folder w listing stems [] [] Hdisc). Qed.

(** The verifier on a folder that holds stems: it prints the level of the
    rebuilt mix and returns what [np.isclose] says. *)
Lemma verify_output_loudness_run :
  verify_output_loudness lib folder target w
  = (Ok (Some (np_isclose level target (1 / 100000) (1 / 10))),
     mkWorld (dirs w) (files w) (stdout w ++ [CombinedLoudness level])).
Proof.
  unfold verify_output_loudness.
  rewrite (bind_run _ _ _ _ _ (os_listdir_run _ _ _ Hdir)).
  rewrite (bind_run _ _ _ _ _ discovery_run). cbv beta iota delta [stems].
  rewrite (bind_run _ _ _ _ _ (lift_run _ _ _ Hmix)).
  rewrite (bind_run _ _ _ _ _ (lift_run _ _ _ Hlevel)).
  reflexivity.
Qed.

(** C3, as amended. On a folder that holds stems the verifier decodes them,
    rebuilds the mix, measures it again, and returns true exactly when the
    level is within [0.1 + 0.00001 * |target|] of the target: the call to
    [np.isclose] keeps the default relative tolerance. *)
Theorem verify_within_isclose_tolerance :
  exists passed : bool,
    verify_output_loudness lib folder target w
    = (Ok (Some passed),
       mkWorld (dirs w) (files w) (stdout w ++ [CombinedLoudness level]))
    /\ (passed = true
        <-> (Rabs (level - target) <= 1 / 10 + 1 / 100000 * Rabs target)%R).
Proof.
  exists (np_isclose level target (1 / 100000) (1 / 10)).
  split; [exact verify_output_loudness_run | apply np_isclose_spec].
Qed.

Variable output_base_folder : string.

Let gain := (target - level)%R.
Let output_folder := output_folder_of lib folder target output_base_folder.
Let adjusted_stems := map (fun stem => adjust_gain stem gain) stems.

Hypothesis Hfree : files w !! output_folder = None.
Hypothesis Hexportable : Forall (fun stem => wav_exportable stem = true) stems.

Lemma adjusted_exportable :
  Forall (fun p => wav_exportable p.2 = true) (zip names adjusted_stems).
Proof. exact (exportable_pairs gain stems Hexportable names). Qed.

(** The whole run: what it prints and which files it leaves. *)
Lemma adjust_stems_in_folder_run :
  exists w',
    adjust_stems_in_folder lib folder target output_base_folder w = (Ok tt, w')
    /\ stdout w' = stdout w ++ [DetectedLoudness level; GainToApply gain;
                                AdjustedStemsSaved output_folder]
    /\ files w' = exported output_folder (zip names adjusted_stems) (files w).
Proof.
  unfold adjust_stems_in_folder.
  rewrite (bind_run _ _ _ _ _ (os_listdir_run _ _ _ Hdir)).
  rewrite (bind_run _ _ _ _ _ discovery_run). cbv beta iota delta [stems].
  rewrite (bind_run _ _ _ _ _ (lift_run _ _ _ Hmix)).
  rewrite (bind_run _ _ _ _ _ (lift_run _ _ _ Hlevel)).
  rewrite (bind_run _ _ _ _ _ (print_run _ _)). cbv zeta.
  rewrite (bind_run _ _ _ _ _ (print_run _ _)). cbn [dirs files stdout].
  fold gain output_folder adjusted_stems.
  set (w2 := mkWorld (dirs w) (files w)
                     ((stdout w ++ [DetectedLoudness level]) ++ [GainToApply gain])).
  destruct (os_makedirs_run output_folder w2 Hfree) as (w3 & Hmk & Hf3 & Ho3 & Hd3).
  destruct (export_all_run output_folder (zip names adjusted_stems) w3 Hd3
              adjusted_exportable) as (w4 & Hex & Hf4 & Ho4).
  exists (mkWorld (dirs w4) (files w4) (stdout w4 ++ [AdjustedStemsSaved output_folder])).
  split.
  - rewrite (bind_run _ _ _ _ _ Hmk).
    rewrite (bind_run _ _ _ _ _ Hex).
    reflexivity.
  - simpl. rewrite Ho4, Hf4, Ho3, Hf3. simpl.
    split; [|reflexivity]. now rewrite <- !app_assoc.
Qed.

(** C2. The gain printed and applied is [target - measured], nothing else,
    and the files written are the exports of the stems after that one gain,
    each stem under the name it was read from. *)
Theorem one_gain_for_every_stem :
  exists w',
    adjust_stems_in_folder lib folder target output_base_folder w = (Ok tt, w')
    /\ stdout w' = stdout w ++ [DetectedLoudness level;
                                GainToApply (target - level)%R;
                                AdjustedStemsSaved output_folder]
    /\ files w' = exported output_folder
                    (zip names (map (fun stem => apply_gain stem (target - level)%R) stems))
                    (files w).
Proof. exact adjust_stems_in_folder_run. Qed.

Hypothesis Hnodup : NoDup listing.
Hypothesis Hplain : Forall plain_name listing.

(** C10. The i-th file with an audio extension, [fn], decodes to the i-th
    stem; after the run [output_folder/fn], the name unchanged whatever its
    extension, holds that stem after the gain, as a WAV file: header and
    PCM samples, which read back with the stem's channel count and rate. *)
Theorem stems_exported_as_wav_under_their_names :
  exists w',
    adjust_stems_in_folder lib folder target output_base_folder w = (Ok tt, w')
    /\ forall (i : nat) (fn : string) (stem : AudioSegment),
         names !! i = Some fn -> stems !! i = Some stem ->
         from_file lib (os_path_join folder fn) w = (Ok stem, w)
         /\ files w' !! os_path_join output_folder fn
            = Some (wav_file (adjust_gain stem gain))
         /\ exists samples,
              sf_read (wav_file (adjust_gain stem gain))
              = Ok (mkSound (channels stem) samples, frame_rate stem).
Proof.
  destruct adjust_stems_in_folder_run as (w' & Hrun & _ & Hfiles).
  exists w'. split; [exact Hrun|].
  intros i fn stem Hfn Hstem. split; [|split].
  - exact (Forall2_lookup_lr _ _ _ _ _ _ Hdisc Hfn Hstem).
  - rewrite Hfiles.
    apply (exported_lookup _ _ _ i).
    + rewrite zip_keys.
      * apply keys_NoDup; [now apply filter_NoDup | now apply filter_plain].
      * subst adjusted_stems. rewrite length_map. exact (Forall2_length _ _ _ Hdisc).
    + exact (zip_lookup names (fun stem => adjust_gain stem gain) stems i fn stem Hfn Hstem).
  - assert (Hok : wav_exportable (adjust_gain stem gain) = true).
    { unfold adjust_gain. rewrite wav_exportable_apply_gain.
      rewrite Forall_forall in Hexportable. apply Hexportable.
      now apply list_elem_of_lookup_2 with i. }
    exact (sf_read_wav_file _ Hok).
Qed.

End Run.

(** ** The runs of the examples *)

Lemma song_discovers (level : R) :
  discovers (test_library level) song_world "in/song" song_listing [drums; vocals].
Proof. repeat constructor. Qed.

Lemma written_discovers (level : R) :
  discovers (test_library level) written_world "out/song_-14.0LUFS" written_listing
            [drums; vocals].
Proof. repeat constructor. Qed.

Lemma song_mix (level : R) :
  build_mix (test_library level) drums [drums; vocals] = Ok drums_and_vocals.
Proof. vm_compute. reflexivity. Qed.

Lemma song_level (level : R) :
  calculate_loudness (test_library level) drums_and_vocals = Ok level.
Proof. reflexivity. Qed.

Lemma song_exportable :
  Forall (fun stem => wav_exportable stem = true) [drums; vocals].
Proof. repeat constructor. Qed.

Lemma one_gain_for_every_stem_witness :
  exists w',
    adjust_stems_in_folder (test_library (-20)) "in/song" (-14) "out" song_world
    = (Ok tt, w')
    /\ stdout w' = [DetectedLoudness (-20); GainToApply (-14 - -20);
                    AdjustedStemsSaved "out/song_-14.0LUFS"]
    /\ files w' = exported "out/song_-14.0LUFS"
                    [("drums.wav"%string, apply_gain drums (-14 - -20));
                     ("vocals.MP3"%string, apply_gain vocals (-14 - -20))]
                    (files song_world).
Proof.
  apply (one_gain_for_every_stem (test_library (-20)) song_world "in/song" (-14)
           song_listing drums [vocals] drums_and_vocals (-20) eq_refl
           (song_discovers _) (song_mix _) (song_level _) "out" eq_refl song_exportable).
Defined.

Lemma stems_exported_as_wav_under_their_names_witness :
  exists w',
    adjust_stems_in_folder (test_library (-20)) "in/song" (-14) "out" song_world
    = (Ok tt, w')
    /\ forall (i : nat) (fn : string) (stem : AudioSegment),
         ["drums.wav"; "vocals.MP3"]%string !! i = Some fn ->
         [drums; vocals] !! i = Some stem ->
         from_file (test_library (-20)) (os_path_join "in/song" fn) song_world
         = (Ok stem, song_world)
         /\ files w' !! os_path_join "out/song_-14.0LUFS" fn
            = Some (wav_file (adjust_gain stem (-14 - -20)))
         /\ exists samples,
              sf_read (wav_file (adjust_gain stem (-14 - -20)))
              = Ok (mkSound (channels stem) samples, frame_rate stem).
Proof.
  apply (stems_exported_as_wav_under_their_names (test_library (-20)) song_world
           "in/song" (-14) song_listing drums [vocals] drums_and_vocals (-20) eq_refl
           (song_discovers _) (song_mix _) (song_level _) "out" eq_refl song_exportable).
  - apply (bool_decide_unpack _). vm_compute. exact I.
  - repeat constructor.
Defined.

Lemma verify_within_isclose_tolerance_witness :
  exists passed : bool,
    verify_output_loudness (test_library (-14)) "out/song_-14.0LUFS" (-14) written_world
    = (Ok (Some passed),
       mkWorld (dirs written_world) (files written_world) [CombinedLoudness (-14)])
    /\ (passed = true
        <-> (Rabs (-14 - -14) <= 1 / 10 + 1 / 100000 * Rabs (-14))%R).
Proof.
  apply (verify_within_isclose_tolerance (test_library (-14)) written_world
           "out/song_-14.0LUFS" (-14) written_listing drums [vocals] drums_and_vocals
           (-14) eq_refl (written_discovers _) (song_mix _) (song_level _)).
Defined.

(** C3 as stated fails: the rebuilt mix measures -14.1001 LUFS against a
    target of -14, more than 0.1 away, and the verifier returns true. *)
Lemma verify_passes_beyond_a_tenth :
  verify_output_loudness (test_library (-141001 / 10000)) "out/song_-14.0LUFS" (-14)
                         written_world
  = (Ok (Some true),
     mkWorld (dirs written_world) (files written_world)
             [CombinedLoudness (-141001 / 10000)])
  /\ ~ (Rabs (-141001 / 10000 - -14) <= 1 / 10)%R.
Proof.
  split.
  - rewrite (verify_output_loudness_run (test_library (-141001 / 10000)) written_world
               "out/song_-14.0LUFS" (-14) written_listing drums [vocals]
               drums_and_vocals (-141001 / 10000) eq_refl (written_discovers _)
               (song_mix _) (song_level _)).
    assert (Hclose : np_isclose (-141001 / 10000) (-14) (1 / 100000) (1 / 10) = true).
    { apply np_isclose_spec. unfold Rabs. repeat destruct Rcase_abs; lra. }
    rewrite Hclose. reflexivity.
  - unfold Rabs. destruct Rcase_abs; lra.
Qed.

(** ** The mix *)

Lemma overlaid_length (width : Z) (canvas : list Z) :
  forall stem, length (overlaid width canvas stem) = length canvas.
Proof.
  induction canvas as [|x canvas IH]; intros [|y stem]; simpl; try reflexivity.
  now rewrite IH.
Qed.

Lemma overlaid_lookup (width : Z) (canvas : list Z) :
  forall (stem : list Z) (i : nat) (x : Z),
    canvas !! i = Some x ->
    overlaid width canvas stem !! i
    = Some (match stem !! i with
            | Some y => clip width (x + y)
            | None => x
            end).
Proof.
  induction canvas as [|x0 canvas IH]; intros [|y stem] [|i] x Hx;
    try discriminate; simpl in *; try assumption.
  - now injection Hx as ->.
  - now apply IH.
Qed.

(** The slicing and adding of [overlay] computes [overlaid]. *)
Lemma overlay_data (width : Z) (d1 : list Z) :
  forall d2 : list Z,
    let remaining := Z.max 0 (Z.of_nat (length d1) - 0) in
    let d2' := if remaining <=? Z.of_nat (length d2)
               then firstn (Z.to_nat remaining) d2 else d2 in
    audioop_add (firstn (length d2') d1) d2' width ++ skipn (length d2') d1
    = overlaid width d1 d2.
Proof.
  induction d1 as [|x d1 IH]; intros d2; cbv zeta.
  - simpl. destruct (0 <=? Z.of_nat (length d2)); destruct d2; reflexivity.
  - destruct d2 as [|y d2].
    + reflexivity.
    + specialize (IH d2). cbv zeta in IH.
      replace (Z.max 0 (Z.of_nat (length (x :: d1)) - 0))
        with (Z.of_nat (S (length d1))) by (simpl length; lia).
      replace (Z.max 0 (Z.of_nat (length d1) - 0))
        with (Z.of_nat (length d1)) in IH by lia.
      rewrite !Nat2Z.id in *.
      replace (Z.of_nat (S (length d1)) <=? Z.of_nat (length (y :: d2)))
        with (Z.of_nat (length d1) <=? Z.of_nat (length d2))
        by (simpl length; destruct (Z.leb_spec (Z.of_nat (length d1)) (Z.of_nat (length d2)));
            symmetry; [apply Z.leb_le | apply Z.leb_gt]; lia).
      destruct (Z.of_nat (length d1) <=? Z.of_nat (length d2)); simpl;
        unfold audioop_add in *; simpl; now rewrite IH.
Qed.

Lemma getitem_slice_empty (seg : AudioSegment) :
  getitem_slice seg 0 0 = Ok (spawn seg []).
Proof.
  unfold getitem_slice, py_slice.
  rewrite Z.sub_diag. simpl firstn. simpl length.
  now rewrite Zdiv_0_l.
Qed.

(** [overlay] is one [overlay_step]. *)
Lemma overlay_is_step (lib : Library) (canvas stem mixed : AudioSegment) :
  overlay lib canvas stem = Ok mixed -> overlay_step lib canvas stem mixed.
Proof.
  unfold overlay, overlay_step.
  destruct (sync lib canvas stem) as [[seg1 seg2]|e]; [|discriminate].
  rewrite getitem_slice_empty.
  destruct (getitem_slice seg1 0 (len_ms seg1)) as [aligned|e] eqn:Haligned;
    [|discriminate].
  intros [= <-]. exists seg1, seg2, aligned.
  split; [reflexivity|]. split; [exact Haligned|].
  simpl. f_equal. apply overlay_data.
Qed.

Lemma overlay_all_mixes (lib : Library) (stems : list AudioSegment) :
  forall canvas mix,
    overlay_all lib canvas stems = Ok mix -> mixes lib canvas stems mix.
Proof.
  induction stems as [|stem stems IH]; intros canvas mix; simpl.
  - intros [= <-]. constructor.
  - destruct (overlay lib canvas stem) as [mixed|e] eqn:Hstep; [|discriminate].
    intros Hrest. apply (mixes_cons lib canvas stem mixed).
    + now apply overlay_is_step.
    + now apply IH.
Qed.

Lemma int_of_float_nonneg (x : Q) : (0 <= x)%Q -> int_of_float x = Qfloor x.
Proof. intros H. unfold int_of_float. apply Qle_bool_iff in H. now rewrite H. Qed.

Lemma frame_count_nonneg (seg : AudioSegment) :
  1 <= channels seg -> (0 <= frame_count seg)%Q.
Proof.
  intros Hch. unfold frame_count.
  change 0%Q with (inject_Z 0). rewrite <- Zle_Qle.
  apply Z.div_pos; lia.
Qed.

Lemma duration_seconds_nonneg (seg : AudioSegment) :
  1 <= channels seg -> 1 <= frame_rate seg -> (0 <= duration_seconds seg)%Q.
Proof.
  intros Hch Hrate. unfold duration_seconds.
  destruct (frame_rate seg =? 0) eqn:E; [apply Z.eqb_eq in E; lia|].
  apply Qle_shift_div_l.
  - change 0%Q with (inject_Z 0). rewrite <- Zlt_Qlt. lia.
  - rewrite Qmult_0_l. now apply frame_count_nonneg.
Qed.

(** The canvas of the mix: silence of as many whole frames at 11025 Hz as
    fit into the duration of the first stem. *)
Lemma canvas_frames (first : AudioSegment) :
  1 <= channels first -> 1 <= frame_rate first ->
  silent (duration_seconds first * 1000)%Q 11025
  = mkSeg 2 11025 1 (repeat 0 (Z.to_nat (Qfloor (11025 * duration_seconds first)%Q))).
Proof.
  intros Hch Hrate. unfold silent.
  pose proof (duration_seconds_nonneg first Hch Hrate) as Hd.
  assert (Heq : (inject_Z 11025 * (duration_seconds first * 1000 / 1000)
                 == 11025 * duration_seconds first)%Q) by (change (inject_Z 11025) with 11025%Q; field).
  rewrite int_of_float_nonneg.
  - now rewrite (Qfloor_comp _ _ Heq).
  - rewrite Heq. apply Qmult_le_0_compat; [discriminate | exact Hd].
Qed.

Lemma canvas_duration (first : AudioSegment) :
  1 <= channels first -> 1 <= frame_rate first ->
  let canvas := silent (duration_seconds first * 1000)%Q 11025 in
  (duration_seconds canvas <= duration_seconds first
   /\ duration_seconds first < duration_seconds canvas + 1 / 11025)%Q.
Proof.
  intros Hch Hrate. cbv zeta. rewrite (canvas_frames first Hch Hrate).
  pose proof (duration_seconds_nonneg first Hch Hrate) as Hd.
  set (d := duration_seconds first) in *.
  assert (Hx : (0 <= 11025 * d)%Q) by (apply Qmult_le_0_compat; [discriminate | exact Hd]).
  assert (Hfloor : 0 <= Qfloor (11025 * d)).
  { change 0 with (Qfloor 0). now apply Qfloor_resp_le. }
  unfold duration_seconds, frame_count. cbn [frame_rate channels data].
  change (11025 =? 0) with false. cbv iota.
  rewrite repeat_length, Z.div_1_r, Z2Nat.id by exact Hfloor.
  pose proof (Qfloor_le (11025 * d)) as Hlo.
  pose proof (Qlt_floor (11025 * d)) as Hhi.
  rewrite inject_Z_plus in Hhi.
  set (F := inject_Z (Qfloor (11025 * d))) in *.
  change (inject_Z 1) with 1%Q in Hhi. change (inject_Z 11025) with 11025%Q.
  clearbody F. clearbody d.
  split.
  - apply Qle_shift_div_r; [reflexivity|]. Lqa.lra.
  - assert (Hsum : (F / 11025 + 1 / 11025 == (F + 1) / 11025)%Q) by field.
    rewrite Hsum. apply Qlt_shift_div_l; [reflexivity|]. Lqa.lra.
Qed.

(** ** The loop produces a mix *)

Lemma py_round_upper (x : Q) : (inject_Z (py_round x) <= x + (1 # 2))%Q.
Proof.
  unfold py_round.
  pose proof (Qfloor_le x) as Hlo. pose proof (Qlt_floor x) as Hhi.
  rewrite inject_Z_plus in Hhi. change (inject_Z 1) with 1%Q in Hhi.
  destruct (Qcompare_spec (x - inject_Z (Qfloor x)) (1 # 2)) as [He|Hl|Hg].
  - destruct (Z.even (Qfloor x)); [Lqa.lra|].
    rewrite inject_Z_plus. change (inject_Z 1) with 1%Q. Lqa.lra.
  - Lqa.lra.
  - rewrite inject_Z_plus. change (inject_Z 1) with 1%Q. Lqa.lra.
Qed.

Lemma py_round_nonneg (x : Q) : (0 <= x)%Q -> 0 <= py_round x.
Proof.
  intros Hx. unfold py_round.
  assert (Hf : 0 <= Qfloor x) by (change 0 with (Qfloor 0); now apply Qfloor_resp_le).
  destruct (Qcompare _ _); [destruct (Z.even _)|..]; lia.
Qed.

Lemma parse_position_0 (seg : AudioSegment) : parse_position seg 0 = 0.
Proof.
  unfold parse_position, frame_count_ms. change (0 <? 0) with false. cbv beta iota zeta.
  assert (H0 : (inject_Z 0 * (inject_Z (frame_rate seg) / 1000) == 0)%Q)
    by (change (inject_Z 0) with 0%Q; apply Qmult_0_l).
  rewrite int_of_float_nonneg by (rewrite H0; apply Qle_refl).
  now rewrite (Qfloor_comp _ _ H0).
Qed.

Lemma parse_position_nonneg (seg : AudioSegment) (v : Z) :
  0 <= v -> 1 <= frame_rate seg ->
  parse_position seg v = Qfloor (frame_count_ms seg (inject_Z v))
  /\ 0 <= Qfloor (frame_count_ms seg (inject_Z v)).
Proof.
  intros Hv Hrate. unfold parse_position.
  destruct (v <? 0) eqn:Hneg; [apply Z.ltb_lt in Hneg; lia|].
  assert (Hr : (1 <= inject_Z (frame_rate seg))%Q)
    by (change 1%Q with (inject_Z 1); now rewrite <- Zle_Qle).
  assert (Hpos : (0 <= frame_count_ms seg (inject_Z v))%Q).
  { unfold frame_count_ms. apply Qmult_le_0_compat.
    - change 0%Q with (inject_Z 0). now rewrite <- Zle_Qle.
    - apply Qle_shift_div_l; [reflexivity|]. Lqa.lra. }
  split; [now apply int_of_float_nonneg|].
  change 0 with (Qfloor 0). now apply Qfloor_resp_le.
Qed.

Lemma getitem_slice_whole (seg : AudioSegment) :
  1 <= channels seg -> 1 <= frame_rate seg ->
  exists d, getitem_slice seg 0 (len_ms seg) = Ok (spawn seg d).
Proof.
  intros Hch Hrate.
  assert (Hr : (1 <= inject_Z (frame_rate seg))%Q)
    by (change 1%Q with (inject_Z 1); now rewrite <- Zle_Qle).
  pose proof (frame_count_nonneg seg Hch) as Hfc.
  assert (Hx : (0 <= 1000 * (frame_count seg / inject_Z (frame_rate seg)))%Q).
  { apply Qmult_le_0_compat; [discriminate|].
    apply Qle_shift_div_l; [Lqa.lra|]. rewrite Qmult_0_l. exact Hfc. }
  pose proof (py_round_nonneg _ Hx) as HL.
  pose proof (py_round_upper (1000 * (frame_count seg / inject_Z (frame_rate seg)))) as HLup.
  fold (len_ms seg) in HL, HLup.
  destruct (parse_position_nonneg seg (len_ms seg) HL Hrate) as [HPeq HP].
  pose proof (Qfloor_le (frame_count_ms seg (inject_Z (len_ms seg)))) as HPle.
  unfold getitem_slice. cbv zeta.
  rewrite (Z.min_l 0 (len_ms seg)) by exact HL. rewrite Z.min_id.
  rewrite parse_position_0, HPeq, Z.mul_0_l.
  set (P := Qfloor (frame_count_ms seg (inject_Z (len_ms seg)))) in *.
  unfold py_slice. rewrite !Z.sub_0_r. simpl (Z.to_nat 0). rewrite skipn_O.
  set (d := firstn (Z.to_nat (P * channels seg)) (data seg)).
  destruct ((P * channels seg - Z.of_nat (length d)) / channels seg =? 0) eqn:Hmiss;
    [now exists d|].
  assert (Hle : Qle_bool (inject_Z ((P * channels seg - Z.of_nat (length d)) / channels seg))
                         (frame_count_ms seg 2) = true).
  { apply Qle_bool_iff.
    apply Z.eqb_neq in Hmiss.
    assert (Hlen : length d = length (data seg)).
    { subst d. rewrite length_take.
      destruct (Nat.le_gt_cases (Z.to_nat (P * channels seg)) (length (data seg))) as [Hin|Hout];
        [|lia].
      exfalso. apply Hmiss.
      rewrite length_take, Nat.min_l, Z2Nat.id by (try exact Hin; nia).
      rewrite Z.sub_diag. apply Zdiv_0_l. }
    rewrite Hlen.
    assert (HZ : (P * channels seg - Z.of_nat (length (data seg))) / channels seg
                 <= P - Z.of_nat (length (data seg)) / channels seg).
    { apply Z.div_le_upper_bound; [lia|].
      pose proof (Z.mul_div_le (Z.of_nat (length (data seg))) (channels seg)). nia. }
    rewrite Zle_Qle in HZ. eapply Qle_trans; [exact HZ|].
    unfold Z.sub. rewrite inject_Z_plus, inject_Z_opp.
    fold (frame_count seg).
    unfold frame_count_ms in *.
    set (R := inject_Z (frame_rate seg)) in *.
    set (F := frame_count seg) in *.
    assert (Hmul : (inject_Z (len_ms seg) * (R / 1000)
                    <= (1000 * (F / R) + (1 # 2)) * (R / 1000))%Q).
    { apply Qmult_le_compat_r; [exact HLup|].
      apply Qle_shift_div_l; [reflexivity|]. Lqa.lra. }
    assert (Heq : ((1000 * (F / R) + (1 # 2)) * (R / 1000) == F + R * (1 # 2000))%Q).
    { field. intros H0. rewrite H0 in Hr. exact (Qlt_not_le 0 1 eq_refl Hr). }
    assert (Heq2 : (2 * (R / 1000) == R * (2 # 1000))%Q) by field.
    rewrite Heq in Hmul. rewrite Heq2.
    clearbody F R P. Lqa.lra. }
  rewrite Hle. simpl. eexists. reflexivity.
Qed.

Lemma set_channels_ok (lib : Library) (seg : AudioSegment) (n : Z) :
  convertible (channels seg) n = true ->
  exists s, set_channels lib seg n = Ok s
            /\ channels s = n /\ frame_rate s = frame_rate seg.
Proof.
  unfold convertible, set_channels. intros H.
  destruct (n =? channels seg) eqn:E1.
  - apply Z.eqb_eq in E1. exists seg. now repeat split.
  - destruct (n =? 1) eqn:E2; [eexists; now repeat split|].
    destruct (channels seg =? 1) eqn:E3; [eexists; now repeat split|].
    discriminate H.
Qed.

Lemma set_frame_rate_fields (lib : Library) (seg : AudioSegment) (rate : Z) :
  channels (set_frame_rate lib seg rate) = channels seg
  /\ frame_rate (set_frame_rate lib seg rate) = rate.
Proof.
  unfold set_frame_rate. destruct (rate =? frame_rate seg) eqn:E; [|now split].
  apply Z.eqb_eq in E. now split.
Qed.

Lemma set_sample_width_fields (seg : AudioSegment) (width : Z) :
  channels (set_sample_width seg width) = channels seg
  /\ frame_rate (set_sample_width seg width) = frame_rate seg.
Proof. unfold set_sample_width. destruct (width =? sample_width seg); now split. Qed.

Lemma sync_ok (lib : Library) (canvas stem : AudioSegment) :
  let m := Z.max (channels canvas) (channels stem) in
  convertible (channels canvas) m = true ->
  convertible (channels stem) m = true ->
  exists seg1 seg2,
    sync lib canvas stem = Ok (seg1, seg2)
    /\ channels seg1 = m
    /\ frame_rate seg1 = Z.max (frame_rate canvas) (frame_rate stem).
Proof.
  intros m H1 H2. unfold sync. fold m.
  destruct (set_channels_ok lib canvas m H1) as (s1 & -> & Hc1 & Hr1).
  destruct (set_channels_ok lib stem m H2) as (s2 & -> & _ & _).
  eexists _, _. split; [reflexivity|].
  destruct (set_sample_width_fields
              (set_frame_rate lib s1 (Z.max (frame_rate canvas) (frame_rate stem)))
              (Z.max (sample_width canvas) (sample_width stem))) as [-> ->].
  destruct (set_frame_rate_fields lib s1 (Z.max (frame_rate canvas) (frame_rate stem)))
    as [-> ->].
  now split.
Qed.

Lemma overlay_ok (lib : Library) (canvas stem : AudioSegment) :
  let m := Z.max (channels canvas) (channels stem) in
  playable canvas -> playable stem ->
  convertible (channels canvas) m = true ->
  convertible (channels stem) m = true ->
  exists mixed,
    overlay lib canvas stem = Ok mixed
    /\ channels mixed = m /\ playable mixed.
Proof.
  intros m [Hc Hr] [Hc' Hr'] H1 H2.
  destruct (sync_ok lib canvas stem H1 H2) as (seg1 & seg2 & Hsync & Hch & Hrate).
  fold m in Hch.
  assert (Hp1 : 1 <= channels seg1) by lia.
  assert (Hp2 : 1 <= frame_rate seg1) by lia.
  destruct (getitem_slice_whole seg1 Hp1 Hp2) as [d Hd].
  unfold overlay. rewrite Hsync, getitem_slice_empty, Hd.
  eexists. split; [reflexivity|]. simpl. unfold playable. simpl. lia.
Qed.

Lemma overlay_all_ok (lib : Library) (stems : list AudioSegment) :
  forall canvas,
    playable canvas -> Forall playable stems ->
    channels_agree (channels canvas) stems = true ->
    exists mix, overlay_all lib canvas stems = Ok mix.
Proof.
  induction stems as [|stem stems IH]; intros canvas Hcanvas Hall Hagree.
  - now exists canvas.
  - inversion Hall as [|? ? Hstem Hrest]; subst.
    simpl in Hagree. rewrite !andb_true_iff in Hagree. destruct Hagree as [[H1 H2] H3].
    destruct (overlay_ok lib canvas stem Hcanvas Hstem H1 H2) as (mixed & Hmixed & Hch & Hp).
    simpl. rewrite Hmixed. apply IH; [exact Hp | exact Hrest | now rewrite Hch].
Qed.




(** * Further properties *)

(** ** File names *)

Lemma endswith_eq (s suffix : string) :
  endswith s suffix
  = if String.eqb s suffix then true
    else match s with
         | EmptyString => false
         | String _ s' => endswith s' suffix
         end.
Proof. destruct s; reflexivity. Qed.

Lemma endswith_spec (s suffix : string) :
  endswith s suffix = true <-> exists pre, s = (pre +:+ suffix)%string.
Proof.
  split.
  - induction s as [|c s IH]; rewrite endswith_eq.
    + destruct (String.eqb "" suffix) eqn:E; [|discriminate].
      apply String.eqb_eq in E. intros _. exists ""%string. now subst.
    + destruct (String.eqb (String c s) suffix) eqn:E.
      * apply String.eqb_eq in E. intros _. exists ""%string. now subst.
      * intros H. destruct (IH H) as [pre ->]. now exists (String c pre).
  - intros [pre ->]. induction pre as [|c pre IH]; rewrite endswith_eq.
    + change ("" +:+ suffix)%string with suffix. now rewrite String.eqb_refl.
    + change (String c pre +:+ suffix)%string with (String c (pre +:+ suffix)).
      destruct (String.eqb (String c (pre +:+ suffix)) suffix); [reflexivity|].
      exact IH.
Qed.

Lemma lower_ascii_idem (c : ascii) : lower_ascii (lower_ascii c) = lower_ascii c.
Proof. destruct c as [[] [] [] [] [] [] [] []]; reflexivity. Qed.

Lemma lower_idem (s : string) : lower (lower s) = lower s.
Proof. induction s as [|c s IH]; simpl; [reflexivity|]. now rewrite lower_ascii_idem, IH. Qed.

(** X1. A name is taken for an audio file exactly when, in lower case, it
    ends in one of the six extensions; upper and lower case in the name make
    no difference. *)
Theorem audio_extension_ignores_case (filename : string) :
  (has_audio_extension filename = true
   <-> exists pre ext, In ext VALID_AUDIO_EXTENSIONS /\ lower filename = (pre +:+ ext)%string)
  /\ has_audio_extension (lower filename) = has_audio_extension filename.
Proof.
  split.
  - unfold has_audio_extension. rewrite existsb_exists. split.
    + intros (ext & Hin & Hend). apply endswith_spec in Hend as [pre Hpre]. now exists pre, ext.
    + intros (pre & ext & Hin & Heq). exists ext. split; [exact Hin|].
      apply endswith_spec. now exists pre.
  - unfold has_audio_extension. now rewrite lower_idem.
Qed.

(** ** What the two functions write *)

Lemma same_files_refl (w : World) : same_files w w.
Proof. now split. Qed.

Lemma same_files_trans (w1 w2 w3 : World) :
  same_files w1 w2 -> same_files w2 w3 -> same_files w1 w3.
Proof. intros [H1 H2] [H3 H4]. split; congruence. Qed.

Lemma same_files_writes (folder : string) (names : list string) (w w' : World) :
  same_files w w' -> writes_only folder names w w'.
Proof. intros [Hd Hf]. split; intros; congruence. Qed.

Lemma writes_only_trans (folder : string) (names : list string) (w1 w2 w3 : World) :
  writes_only folder names w1 w2 -> writes_only folder names w2 w3 ->
  writes_only folder names w1 w3.
Proof.
  intros [Hf1 Hd1] [Hf2 Hd2]. split.
  - intros path Hp. now rewrite Hf2, Hf1.
  - intros dir Hd. now rewrite Hd2, Hd1.
Qed.

Lemma writes_only_more (folder : string) (names names' : list string) (w w' : World) :
  names ⊆ names' -> writes_only folder names w w' -> writes_only folder names' w w'.
Proof.
  intros Hsub [Hf Hd]. split; [|exact Hd].
  intros path Hp. apply Hf. intros Hin. apply Hp.
  apply list_elem_of_fmap in Hin as (fn & -> & Hfn).
  apply list_elem_of_fmap. exists fn. split; [reflexivity|]. now apply Hsub.
Qed.

(** What holds of the worlds before and after every step of [m ≫= k] holds
    of its whole run. *)
Lemma bind_keeps {A B} (P : World -> World -> Prop) (m : M A) (k : A -> M B) (w : World) :
  (forall w1 w2 w3, P w1 w2 -> P w2 w3 -> P w1 w3) ->
  P w (m w).2 ->
  (forall a w1, m w = (Ok a, w1) -> P w1 (k a w1).2) ->
  P w ((m ≫= k) w).2.
Proof.
  intros Htrans Hm Hk. unfold mbind, M_bind, bind.
  destruct (m w) as [[a|e] w1] eqn:E; simpl in *; [|exact Hm].
  exact (Htrans _ _ _ Hm (Hk a w1 eq_refl)).
Qed.

Lemma os_listdir_same (path : string) (w : World) : same_files w (os_listdir path w).2.
Proof. unfold os_listdir. destruct (dirs w !! path); apply same_files_refl. Qed.

Lemma os_listdir_inv (path : string) (w w1 : World) (listing : list string) :
  os_listdir path w = (Ok listing, w1) -> dirs w !! path = Some listing /\ w1 = w.
Proof.
  unfold os_listdir. destruct (dirs w !! path); intros [= <- <-]; now split.
Qed.

Lemma print_same (l : line) (w : World) : same_files w (print l w).2.
Proof. now split. Qed.

Lemma lift_same {A} (r : result A) (w : World) : same_files w (lift r w).2.
Proof. apply same_files_refl. Qed.

Lemma raise_same {A} (e : exn) (w : World) : same_files w (@raise A e w).2.
Proof. apply same_files_refl. Qed.

Lemma from_file_same (lib : Library) (path : string) (w : World) :
  (from_file lib path w).2 = w.
Proof.
  unfold from_file. destruct (files w !! path) as [b|]; [|reflexivity].
  destruct (decode lib path b); reflexivity.
Qed.

Lemma load_stems_same (lib : Library) (folder : string) (listing : list string) :
  forall stems names w, (load_stems lib folder listing stems names w).2 = w.
Proof.
  induction listing as [|fn listing IH]; intros stems names w; simpl; [reflexivity|].
  destruct (has_audio_extension fn); [|apply IH].
  unfold mbind, M_bind, bind.
  pose proof (from_file_same lib (os_path_join folder fn) w) as Hw.
  destruct (from_file lib (os_path_join folder fn) w) as [[audio|e] w1]; simpl in Hw; subst w1.
  - apply IH.
  - reflexivity.
Qed.

Lemma load_stems_same_files (lib : Library) (folder : string) (listing : list string)
    (w : World) :
  same_files w (load_stems lib folder listing [] [] w).2.
Proof. rewrite load_stems_same. apply same_files_refl. Qed.

(** What the loop has when it returns: the names with an audio extension,
    in listing order, and for each the stem its file decodes to. *)
Lemma load_stems_inv (lib : Library) (folder : string) (w : World) (listing : list string) :
  forall acc_stems acc_names stems names w1,
    load_stems lib folder listing acc_stems acc_names w = (Ok (stems, names), w1) ->
    exists new,
      stems = acc_stems ++ new
      /\ names = acc_names ++ List.filter has_audio_extension listing
      /\ discovers lib w folder listing new.
Proof.
  unfold discovers.
  induction listing as [|fn listing IH]; intros acc_stems acc_names stems names w1; simpl.
  - intros [= <- <- <-]. exists []. rewrite !app_nil_r. repeat split. constructor.
  - destruct (has_audio_extension fn) eqn:Hext; [|apply IH].
    unfold mbind, M_bind, bind.
    pose proof (from_file_same lib (os_path_join folder fn) w) as Hw.
    destruct (from_file lib (os_path_join folder fn) w) as [[audio|e] w2] eqn:Hfile;
      simpl in Hw; subst w2; [|discriminate].
    intros Hrest. destruct (IH _ _ _ _ _ Hrest) as (new & -> & -> & Hall).
    exists (audio :: new). rewrite <- !app_assoc. repeat split.
    now constructor.
Qed.

Lemma os_makedirs_writes (path : string) (names : list string) (w : World) :
  writes_only path names w (os_makedirs path w).2.
Proof.
  unfold os_makedirs. destruct (files w !! path); [now apply same_files_writes|].
  destruct (dirs w !! path); [now apply same_files_writes|].
  split; simpl; [reflexivity|]. intros dir Hne. now rewrite lookup_insert_ne.
Qed.

Lemma write_file_writes (folder filename : string) (content : list Z) (w : World) :
  writes_only folder [filename] w (write_file folder filename content w).2.
Proof.
  unfold write_file. destruct (dirs w !! folder); [|now apply same_files_writes].
  split; simpl.
  - intros path Hp. rewrite lookup_insert_ne; [reflexivity|].
    intros Heq. apply Hp. subst path. constructor.
  - intros dir Hne. now rewrite lookup_insert_ne.
Qed.

Lemma export_writes (seg : AudioSegment) (folder filename : string) (w : World) :
  writes_only folder [filename] w (export seg folder filename w).2.
Proof.
  unfold export. apply bind_keeps.
  - apply writes_only_trans.
  - apply write_file_writes.
  - intros _ w1 _. destruct (export_wav seg).
    + apply write_file_writes.
    + apply same_files_writes, raise_same.
Qed.

Lemma export_all_writes (folder : string) (pairs : list (string * AudioSegment)) :
  forall w, writes_only folder (map fst pairs) w (export_all folder pairs w).2.
Proof.
  induction pairs as [|[fn seg] pairs IH]; intros w; simpl.
  - now apply same_files_writes.
  - apply bind_keeps.
    + apply writes_only_trans.
    + apply (writes_only_more folder [fn]); [|apply export_writes].
      intros x Hx. apply list_elem_of_singleton in Hx as ->. constructor.
    + intros _ w1 _. apply (writes_only_more folder (map fst pairs)); [|apply IH].
      intros x Hx. now constructor.
Qed.

Lemma zip_names_subset {A} (names : list string) :
  forall l : list A, map fst (zip names l) ⊆ names.
Proof.
  induction names as [|fn names IH]; intros [|x l]; simpl;
    try (intros y Hy; now apply elem_of_nil in Hy).
  intros y Hy. apply elem_of_cons in Hy as [->|Hy]; [constructor|].
  constructor. now apply (IH l).
Qed.


(** X3. The verifier changes no file and no directory, whether it returns
    or raises. *)
Theorem verify_changes_no_file (lib : Library) (w : World) (output_folder : string)
    (target : R) :
  same_files w (verify_output_loudness lib output_folder target w).2.
Proof.
  unfold verify_output_loudness.
  apply bind_keeps; [exact same_files_trans | apply os_listdir_same |].
  intros listing w1 _.
  apply bind_keeps; [exact same_files_trans | apply load_stems_same_files |].
  intros [[|first rest] names] w2 _.
  - apply raise_same.
  - apply bind_keeps; [exact same_files_trans | apply lift_same |].
    intros mix w3 _.
    apply bind_keeps; [exact same_files_trans | apply lift_same |].
    intros level w4 _.
    apply bind_keeps; [exact same_files_trans | apply print_same |].
    intros _ w5 _. apply same_files_refl.
Qed.

(** ** What a gain does to the samples *)

Lemma minval_le_maxval (width : Z) : 1 <= width -> minval width < maxval width.
Proof.
  intros Hw. unfold minval, maxval.
  assert (0 < 2 ^ (8 * width - 1)) by (apply Z.pow_pos_nonneg; lia).
  assert (2 ^ 1 <= 2 ^ (8 * width - 1)) by (apply Z.pow_le_mono_r; lia).
  change (2 ^ 1) with 2 in *. lia.
Qed.

Lemma fbound_range (v : R) (lo hi : Z) : lo <= hi -> lo <= fbound v lo hi <= hi.
Proof.
  intros Hle. unfold fbound.
  destruct (Rlt_dec (IZR hi) v) as [H|H]; [rewrite ZfloorZ; lia|].
  destruct (Rlt_dec v (IZR lo + 1)) as [H'|H']; [rewrite ZfloorZ; lia|].
  pose proof (Zfloor_bound v) as [Hf1 Hf2].
  split.
  - apply Zfloor_lub. lra.
  - apply le_IZR. lra.
Qed.

(** X4. A gain changes neither the format nor the number of samples, and
    whatever the gain and whatever the samples were, each sample of the
    result fits the sample width: [audioop.mul] saturates. *)
Theorem gain_keeps_format_and_range (stem : AudioSegment) (gain_dB : R) :
  1 <= sample_width stem ->
  sample_width (adjust_gain stem gain_dB) = sample_width stem
  /\ frame_rate (adjust_gain stem gain_dB) = frame_rate stem
  /\ channels (adjust_gain stem gain_dB) = channels stem
  /\ length (data (adjust_gain stem gain_dB)) = length (data stem)
  /\ samples_ok (adjust_gain stem gain_dB).
Proof.
  intros Hw. unfold adjust_gain, apply_gain, audioop_mul, samples_ok. simpl.
  repeat split; [apply length_map|].
  apply Forall_forall. intros s' Hin. apply list_elem_of_fmap in Hin as (s & -> & _).
  apply fbound_range. pose proof (minval_le_maxval _ Hw). lia.
Qed.

Lemma gain_keeps_format_and_range_witness :
  sample_width (adjust_gain vocals 6) = 2
  /\ frame_rate (adjust_gain vocals 6) = 11025
  /\ channels (adjust_gain vocals 6) = 1
  /\ length (data (adjust_gain vocals 6)) = 8%nat
  /\ samples_ok (adjust_gain vocals 6).
Proof. apply (gain_keeps_format_and_range vocals 6). simpl. lia. Defined.


Local Open Scope R_scope.

Lemma db_to_float_le_1 (g : R) : g <= 0 -> db_to_float g <= 1.
Proof.
  intros Hg. unfold db_to_float, Rpower.
  assert (Hln : 0 < ln 10) by (rewrite <- ln_1; apply ln_increasing; lra).
  assert (Hle : g / 20 * ln 10 <= 0).
  { replace 0 with (0 * ln 10) by ring. apply Rmult_le_compat_r; lra. }
  rewrite <- exp_0. destruct Hle as [Hlt|Heq].
  - left. now apply exp_increasing.
  - right. now rewrite Heq.
Qed.

Lemma attenuate_sample (s lo hi : Z) (f : R) :
  0 < f <= 1 -> (lo <= s <= hi)%Z ->
  let s' := fbound (IZR s * f) lo hi in
  ((0 <= s)%Z -> (0 <= s' <= s)%Z) /\ ((s < 0)%Z -> (s <= s' <= -1)%Z).
Proof.
  intros [Hf0 Hf1] [Hlo Hhi]. cbv zeta.
  apply IZR_le in Hlo as Hlo', Hhi as Hhi'.
  assert (Hcases : (0 <= s)%Z \/ (s < 0)%Z) by lia.
  destruct Hcases as [Hs|Hs].
  - split; [intros _|lia].
    apply IZR_le in Hs as Hs'.
    assert (H1 : 0 <= IZR s * f) by (apply Rmult_le_pos; lra).
    assert (H2 : IZR s * f <= IZR s).
    { rewrite <- (Rmult_1_r (IZR s)) at 2. apply Rmult_le_compat_l; lra. }
    unfold fbound.
    destruct (Rlt_dec (IZR hi) (IZR s * f)) as [H|H]; [lra|].
    destruct (Rlt_dec (IZR s * f) (IZR lo + 1)) as [H'|H'].
    + rewrite ZfloorZ.
      assert (Hl' : (-1 < lo)%Z) by (apply lt_IZR; lra).
      lia.
    + pose proof (Zfloor_bound (IZR s * f)) as [Hb1 Hb2]. split.
      * apply Zfloor_lub. simpl. lra.
      * apply le_IZR. lra.
  - split; [lia|intros _].
    apply IZR_lt in Hs as Hs'.
    assert (H1 : IZR s * f < 0).
    { replace 0 with (IZR s * 0) by ring. apply Rmult_lt_gt_compat_neg_l; lra. }
    assert (H2 : IZR s <= IZR s * f).
    { rewrite <- (Rmult_1_r (IZR s)) at 1. apply Rmult_le_compat_neg_l; lra. }
    unfold fbound.
    destruct (Rlt_dec (IZR hi) (IZR s * f)) as [H|H].
    { rewrite ZfloorZ. assert (Hh : (hi < 0)%Z) by (apply lt_IZR; lra). lia. }
    destruct (Rlt_dec (IZR s * f) (IZR lo + 1)) as [H'|H'].
    + rewrite ZfloorZ.
      assert (Hsl : (s < lo + 1)%Z) by (apply lt_IZR; rewrite plus_IZR; lra).
      lia.
    + pose proof (Zfloor_bound (IZR s * f)) as [Hb1 Hb2]. split.
      * apply Zfloor_lub. lra.
      * assert (Hlt : (Zfloor (IZR s * f) < 0)%Z) by (apply lt_IZR; lra). lia.
Qed.

Local Close Scope R_scope.




(** ** What the meter is given *)

Lemma le_value_le_bytes_mod (n : nat) (v : Z) :
  le_value (le_bytes n v) = v mod 256 ^ Z.of_nat n.
Proof.
  revert v. induction n as [|n IH]; intros v.
  - simpl. now rewrite Z.mod_1_r.
  - change (le_value (le_bytes (S n) v))
      with (v mod 256 + 256 * le_value (le_bytes n (v / 256))).
    rewrite IH, Nat2Z.inj_succ, Z.pow_succ_r by lia.
    rewrite Z.rem_mul_r; [reflexivity | lia |]. apply Z.pow_pos_nonneg; lia.
Qed.

Lemma read_samples_flat_map (width : nat) (enc : Z -> Z) (d : list Z) :
  read_samples width (length d) (flat_map (fun s => le_bytes width (enc s)) d)
  = map (fun s => le_value (le_bytes width (enc s))) d.
Proof.
  induction d as [|s d IH]; [reflexivity|].
  simpl. rewrite take_app_length', drop_app_length' by (symmetry; apply le_bytes_length).
  now rewrite IH.
Qed.

Lemma sample_read_back (width s : Z) :
  1 <= width <= 4 -> sample_ok width s ->
  to_signed (width * 8)
            (le_value (le_bytes (Z.to_nat width) (if width =? 1 then s + 128 else s)))
  = s.
Proof.
  intros Hw Hs. rewrite le_value_le_bytes_mod. unfold sample_ok, minval, maxval in Hs.
  assert (Hcases : width = 1 \/ width = 2 \/ width = 3 \/ width = 4) by lia.
  destruct Hcases as [-> | [-> | [-> | ->]]]; unfold to_signed;
    match goal with
    | _ : - 2 ^ ?e <= _ <= _ |- context [256 ^ ?n] =>
        let p := eval vm_compute in (2 ^ e) in
        let q := eval vm_compute in (256 ^ n) in
        change (2 ^ e) with p in Hs; change (256 ^ n) with q
    end;
    repeat match goal with
    | |- context [2 ^ ?e] =>
        let p := eval vm_compute in (2 ^ e) in change (2 ^ e) with p
    end;
    simpl Z.eqb; cbv iota.
  - rewrite Z.mod_small by lia. lia.
  - destruct (Z.leb_spec 0 s).
    + rewrite Z.mod_small by lia. destruct (Z.ltb_spec s 32768); lia.
    + rewrite <- (Z.mod_add s 1 65536), Z.mod_small by lia.
      destruct (Z.ltb_spec (s + 1 * 65536) 32768); lia.
  - destruct (Z.leb_spec 0 s).
    + rewrite Z.mod_small by lia. destruct (Z.ltb_spec s 8388608); lia.
    + rewrite <- (Z.mod_add s 1 16777216), Z.mod_small by lia.
      destruct (Z.ltb_spec (s + 1 * 16777216) 8388608); lia.
  - destruct (Z.leb_spec 0 s).
    + rewrite Z.mod_small by lia. destruct (Z.ltb_spec s 2147483648); lia.
    + rewrite <- (Z.mod_add s 1 4294967296), Z.mod_small by lia.
      destruct (Z.ltb_spec (s + 1 * 4294967296) 2147483648); lia.
Qed.

Lemma wav_file_body (seg : AudioSegment) :
  skipn 44 (wav_file seg) = pcm_for_wav seg
  /\ field (wav_file seg) 40 4
     = le_value (le_bytes 4 (Z.of_nat (length (pcm_for_wav seg)))).
Proof. split; reflexivity. Qed.

Lemma sf_read_samples (seg : AudioSegment) :
  wav_exportable seg = true -> samples_ok seg ->
  sf_read (wav_file seg)
  = Ok (mkSound (channels seg) (map (normalised (sample_width seg)) (data seg)),
        frame_rate seg).
Proof.
  intros Hok Hsamples.
  destruct (wav_file_fields seg) as (H1 & H2 & H3 & H4 & H5 & H6 & H7 & H8).
  destruct (wav_file_body seg) as [Hbody Hlen].
  unfold wav_exportable, header_fits in Hok.
  rewrite !andb_true_iff, !Z.leb_le, !fits_spec in Hok.
  destruct Hok as [[[[Hch Hw1] Hw4] Hr] [[[[Hfl Hfc] Hfr] _] _]].
  rewrite le_value_le_bytes in H6 by (change (256 ^ Z.of_nat 2) with (2 ^ 16); lia).
  rewrite le_value_le_bytes in H7 by (change (256 ^ Z.of_nat 4) with (2 ^ 32); lia).
  rewrite le_value_le_bytes in H8 by (change (256 ^ Z.of_nat 2) with 65536; lia).
  rewrite le_value_le_bytes in Hlen by (change (256 ^ Z.of_nat 4) with (2 ^ 32); lia).
  unfold sf_read. rewrite H1, H2, H3, H4, H5, H6, H7, H8, Hbody, Hlen.
  rewrite !bool_decide_eq_true_2 by reflexivity.
  assert (Hbits : existsb (Z.eqb (sample_width seg * 8)) [8; 16; 24; 32] = true).
  { assert (Hw : sample_width seg = 1 \/ sample_width seg = 2
                 \/ sample_width seg = 3 \/ sample_width seg = 4) by lia.
    destruct Hw as [-> | [-> | [-> | ->]]]; reflexivity. }
  rewrite Hbits.
  assert (Hone : (1 <=? channels seg) = true) by (apply Z.leb_le; lia).
  rewrite Hone. cbv zeta. simpl andb. cbv iota.
  rewrite Nat2Z.id, firstn_all, Z.div_mul by lia.
  rewrite pcm_for_wav_length.
  rewrite Nat.mul_comm, Nat.div_mul by lia.
  unfold pcm_for_wav. rewrite read_samples_flat_map, map_map.
  do 3 f_equal. apply map_ext_in. intros s Hs.
  unfold samples_ok in Hsamples. rewrite List.Forall_forall in Hsamples.
  rewrite sample_read_back by (try apply Hsamples; try exact Hs; lia).
  unfold normalised. now rewrite (Z.mul_comm (sample_width seg) 8).
Qed.



(** ** Discovery, both ways *)

(** X8. The discovery loop returns normally exactly when every file with
    an audio extension loads; it then returns the names with an audio
    extension in listing order and, for each, the segment its file decodes
    to, and it changes nothing. *)
Theorem load_stems_returns_what_decodes (lib : Library) (folder : string) (w w' : World)
    (listing : list string) (stems : list AudioSegment) (names : list string) :
  load_stems lib folder listing [] [] w = (Ok (stems, names), w')
  <-> w' = w
      /\ names = List.filter has_audio_extension listing
      /\ discovers lib w folder listing stems.
Proof.
  split.
  - intros Hrun.
    pose proof (load_stems_same lib folder listing [] [] w) as Hw.
    rewrite Hrun in Hw. simpl in Hw. subst w'.
    destruct (load_stems_inv lib folder w listing _ _ _ _ _ Hrun) as (new & -> & -> & Hd).
    now repeat split.
  - intros (-> & -> & Hd).
    exact (load_stems_run lib folder w listing stems [] [] Hd).
Qed.

(** ** A stem that does not load *)

Lemma from_file_raises (lib : Library) (path : string) (w w' : World) (e : exn) :
  from_file lib path w = (Raise e, w') ->
  e = FileNotFoundError \/ e = CouldntDecodeError.
Proof.
  unfold from_file. destruct (files w !! path) as [b|].
  - destruct (decode lib path b); intros [= <- _]; now right.
  - intros [= <- _]. now left.
Qed.

Lemma load_stems_raises (lib : Library) (folder : string) (w : World)
    (listing : list string) :
  forall acc_stems acc_names e w',
    load_stems lib folder listing acc_stems acc_names w = (Raise e, w') ->
    e = FileNotFoundError \/ e = CouldntDecodeError.
Proof.
  induction listing as [|fn listing IH]; intros acc_stems acc_names e w'; simpl.
  - discriminate.
  - destruct (has_audio_extension fn); [|apply IH].
    unfold mbind, M_bind, bind.
    pose proof (from_file_same lib (os_path_join folder fn) w) as Hw.
    destruct (from_file lib (os_path_join folder fn) w) as [[audio|e'] w2] eqn:Hfile;
      simpl in Hw; subst w2.
    + apply IH.
    + intros [= <- _]. exact (from_file_raises _ _ _ _ _ Hfile).
Qed.

(** One file that does not load is enough for the loop to raise. *)
Lemma load_stems_stops (lib : Library) (folder : string) (w : World)
    (listing : list string) (fn : string) (e : exn) :
  fn ∈ listing -> has_audio_extension fn = true ->
  from_file lib (os_path_join folder fn) w = (Raise e, w) ->
  exists e', load_stems lib folder listing [] [] w = (Raise e', w)
             /\ (e' = FileNotFoundError \/ e' = CouldntDecodeError).
Proof.
  intros Hin Hext Hfile.
  pose proof (load_stems_same lib folder listing [] [] w) as Hw.
  destruct (load_stems lib folder listing [] [] w) as [[[stems names]|e'] w1] eqn:Hrun;
    simpl in Hw; subst w1.
  - exfalso.
    destruct (load_stems_inv lib folder w listing _ _ _ _ _ Hrun) as (new & _ & _ & Hd).
    unfold discovers in Hd.
    assert (Hin' : fn ∈ List.filter has_audio_extension listing).
    { apply list_elem_of_In, filter_In. split; [now apply list_elem_of_In | exact Hext]. }
    apply list_elem_of_lookup_1 in Hin' as [i Hi].
    destruct (Forall2_lookup_l _ _ _ _ _ Hd Hi) as (stem & _ & Hok).
    rewrite Hfile in Hok. discriminate.
  - exists e'. split; [reflexivity|].
    exact (load_stems_raises _ _ _ _ _ _ _ _ Hrun).
Qed.



(** ** The format of the mix *)

Lemma set_channels_fields (lib : Library) (seg s : AudioSegment) (n : Z) :
  set_channels lib seg n = Ok s ->
  channels s = n /\ frame_rate s = frame_rate seg /\ sample_width s = sample_width seg.
Proof.
  unfold set_channels.
  destruct (n =? channels seg) eqn:E1.
  - apply Z.eqb_eq in E1. intros [= <-]. now repeat split.
  - destruct (n =? 1); [intros [= <-]; now repeat split|].
    destruct (channels seg =? 1); [intros [= <-]; now repeat split|discriminate].
Qed.

Lemma set_frame_rate_width (lib : Library) (seg : AudioSegment) (rate : Z) :
  sample_width (set_frame_rate lib seg rate) = sample_width seg.
Proof. unfold set_frame_rate. now destruct (rate =? frame_rate seg). Qed.

Lemma set_sample_width_width (seg : AudioSegment) (width : Z) :
  sample_width (set_sample_width seg width) = width.
Proof.
  unfold set_sample_width. destruct (width =? sample_width seg) eqn:E; [|reflexivity].
  now apply Z.eqb_eq in E.
Qed.

Lemma overlay_format (lib : Library) (canvas stem mixed : AudioSegment) :
  overlay lib canvas stem = Ok mixed ->
  sample_width mixed = Z.max (sample_width canvas) (sample_width stem)
  /\ frame_rate mixed = Z.max (frame_rate canvas) (frame_rate stem)
  /\ channels mixed = Z.max (channels canvas) (channels stem).
Proof.
  unfold overlay, sync.
  destruct (set_channels lib canvas _) as [s1|e1] eqn:H1; [|discriminate].
  destruct (set_channels lib stem _) as [s2|e2] eqn:H2; [|discriminate].
  destruct (getitem_slice _ 0 0) as [head|e3]; [|discriminate].
  destruct (getitem_slice _ 0 _) as [rest|e4]; [|discriminate].
  intros [= <-]. simpl.
  apply set_channels_fields in H1 as (Hc & Hr & Hw).
  destruct (set_sample_width_fields (set_frame_rate lib s1
              (Z.max (frame_rate canvas) (frame_rate stem)))
              (Z.max (sample_width canvas) (sample_width stem))) as [-> ->].
  destruct (set_frame_rate_fields lib s1 (Z.max (frame_rate canvas) (frame_rate stem)))
    as [-> ->].
  now rewrite set_sample_width_width.
Qed.

Lemma overlay_all_format (lib : Library) (stems : list AudioSegment) :
  forall canvas mix,
    overlay_all lib canvas stems = Ok mix ->
    sample_width mix = widest sample_width (sample_width canvas) stems
    /\ frame_rate mix = widest frame_rate (frame_rate canvas) stems
    /\ channels mix = widest channels (channels canvas) stems.
Proof.
  unfold widest.
  induction stems as [|stem stems IH]; intros canvas mix; simpl.
  - intros [= <-]. now repeat split.
  - destruct (overlay lib canvas stem) as [mixed|e] eqn:Hstep; [|discriminate].
    intros Hrest. apply overlay_format in Hstep as (<- & <- & <-).
    now apply IH.
Qed.

Lemma widest_le (f : AudioSegment -> Z) (stems : list AudioSegment) :
  forall least,
    least <= widest f least stems
    /\ Forall (fun stem => f stem <= widest f least stems) stems.
Proof.
  unfold widest.
  induction stems as [|stem stems IH]; intros least; simpl.
  - split; [lia | constructor].
  - destruct (IH (Z.max least (f stem))) as [H1 H2].
    split; [lia|]. constructor; [lia | exact H2].
Qed.

(** X10. The mix is 16 bit, 11025 Hz and mono unless a stem is wider: each of
    the three is the largest value among the silent canvas and the stems,
    so no stem is reduced to fit the mix. *)
Theorem mix_has_the_widest_format (lib : Library) (first : AudioSegment)
    (stems : list AudioSegment) (mix : AudioSegment) :
  build_mix lib first stems = Ok mix ->
  (sample_width mix = widest sample_width 2 stems
   /\ frame_rate mix = widest frame_rate 11025 stems
   /\ channels mix = widest channels 1 stems)
  /\ Forall (fun stem => sample_width stem <= sample_width mix
                         /\ frame_rate stem <= frame_rate mix
                         /\ channels stem <= channels mix) stems.
Proof.
  unfold build_mix. intros Hmix.
  apply overlay_all_format in Hmix as (Hw & Hr & Hc). simpl in Hw, Hr, Hc.
  split; [now repeat split|].
  rewrite Hw, Hr, Hc.
  pose proof (widest_le sample_width stems 2) as [_ H1].
  pose proof (widest_le frame_rate stems 11025) as [_ H2].
  pose proof (widest_le channels stems 1) as [_ H3].
  rewrite Forall_forall in *. intros stem Hin. auto.
Qed.

Lemma mix_has_the_widest_format_witness :
  (sample_width drums_and_vocals = widest sample_width 2 [drums; vocals]
   /\ frame_rate drums_and_vocals = widest frame_rate 11025 [drums; vocals]
   /\ channels drums_and_vocals = widest channels 1 [drums; vocals])
  /\ Forall (fun stem => sample_width stem <= sample_width drums_and_vocals
                         /\ frame_rate stem <= frame_rate drums_and_vocals
                         /\ channels stem <= channels drums_and_vocals) [drums; vocals].
Proof.
  apply (mix_has_the_widest_format (test_library (-20)) drums [drums; vocals]).
  exact (song_mix (-20)).
Defined.

(** ** The batch driver *)

Lemma gbind_run {A B} (m : G A) (k : A -> G B) (d d' : Desk) (a : A) :
  m d = (Ok a, d') -> (m ≫= k) d = k a d'.
Proof. intros H. unfold mbind, G_bind. now rewrite H. Qed.

Lemma gbind_raise {A B} (m : G A) (k : A -> G B) (d d' : Desk) (e : exn) :
  m d = (Raise e, d') -> (m ≫= k) d = (Raise e, d').
Proof. intros H. unfold mbind, G_bind. now rewrite H. Qed.

Lemma call_run {A} (m : M A) (d : Desk) (r : result A) (w : World) :
  m (disk d) = (r, w) ->
  call m d = (r, mkDesk (dirs w) (files w) (console d ++ (inl <$> stdout w))
                        (button d) (progress_maximum d) (progress_value d) (dialogs d)).
Proof. intros H. unfold call. now rewrite H. Qed.

Lemma say_run (r : report) (d : Desk) :
  say r d = (Ok tt, mkDesk (disk_dirs d) (disk_files d) (console d ++ [inr r])
                           (button d) (progress_maximum d) (progress_value d) (dialogs d)).
Proof. reflexivity. Qed.

Lemma set_progress_value_run (n : Z) (d : Desk) :
  set_progress_value n d
  = (Ok tt, mkDesk (disk_dirs d) (disk_files d) (console d)
                   (button d) (progress_maximum d) n (dialogs d)).
Proof. reflexivity. Qed.

Lemma verdicts_app (c1 c2 : list (line + report)) :
  verdicts (c1 ++ c2) = verdicts c1 ++ verdicts c2.
Proof. apply omap_app. Qed.

Lemma verdicts_lines (out : list line) : verdicts (inl <$> out) = [].
Proof. induction out as [|l out IH]; [reflexivity | exact IH]. Qed.

Lemma call_window {A} (m : M A) (d : Desk) :
  same_window d (call m d).2
  /\ progress_value (call m d).2 = progress_value d
  /\ verdicts (console (call m d).2) = verdicts (console d).
Proof.
  unfold call, same_window.
  destruct (m _) as [r w]. simpl.
  rewrite verdicts_app, verdicts_lines, app_nil_r. now repeat split.
Qed.

Section DriverFacts.

Context (lib : Library).
Variables (output_folder : string) (target : R).

Let out_of (subfolder_path : string) : string :=
  output_folder_of lib subfolder_path target output_folder.

(** The loop: it shows no message box and leaves button and maximum alone;
    the folders that got a verdict are the first [k] it was given, and it
    returns normally exactly when these are all of them. *)
Lemma process_each_verdicts (subfolders : list string) :
  forall (i : Z) (d d' : Desk) (r : result unit),
    process_each lib output_folder target i subfolders d = (r, d') ->
    same_window d d'
    /\ exists k : nat,
         (k <= length subfolders)%nat
         /\ verdicts (console d')
            = verdicts (console d) ++ take k (map out_of subfolders)
         /\ (k = length subfolders <-> r = Ok tt).
Proof.
  induction subfolders as [|sub subs IH]; intros i d d' r Hrun.
  - injection Hrun as <- <-.
    split; [now repeat split|]. exists 0%nat. simpl. rewrite app_nil_r.
    repeat split; lia.
  - cbn [process_each] in Hrun.
    rewrite (gbind_run _ _ _ _ _ (say_run _ _)) in Hrun.
    set (d1 := mkDesk _ _ (console d ++ [inr (ProcessingFolder sub)]) _ _ _ _) in Hrun.
    destruct (call_window (adjust_stems_in_folder lib sub target output_folder) d1)
      as ((Hb2 & Hm2 & Hd2) & _ & Hv2).
    destruct (call (adjust_stems_in_folder lib sub target output_folder) d1)
      as [[[]|e] d2] eqn:Hadj; simpl in Hb2, Hm2, Hd2, Hv2.
    2:{ rewrite (gbind_raise _ _ _ _ _ Hadj) in Hrun. injection Hrun as <- <-.
        split; [now repeat split|]. exists 0%nat.
        rewrite Hv2. unfold d1. simpl. rewrite verdicts_app, !app_nil_r.
        repeat split; [lia | discriminate | discriminate]. }
    rewrite (gbind_run _ _ _ _ _ Hadj) in Hrun. cbv zeta in Hrun.
    fold (output_folder_of lib sub target output_folder) in Hrun. fold (out_of sub) in Hrun.
    destruct (call_window (verify_output_loudness lib (out_of sub) target) d2)
      as ((Hb3 & Hm3 & Hd3) & _ & Hv3).
    destruct (call (verify_output_loudness lib (out_of sub) target) d2)
      as [[passed|e] d3] eqn:Hver; simpl in Hb3, Hm3, Hd3, Hv3.
    2:{ rewrite (gbind_raise _ _ _ _ _ Hver) in Hrun. injection Hrun as <- <-.
        split; [unfold same_window; now rewrite Hb3, Hm3, Hd3, Hb2, Hm2, Hd2|].
        exists 0%nat.
        rewrite Hv3, Hv2. unfold d1. simpl. rewrite verdicts_app, !app_nil_r.
        repeat split; [lia | discriminate | discriminate]. }
    rewrite (gbind_run _ _ _ _ _ Hver) in Hrun.
    set (verdict := if truthy passed then VerificationPassed (out_of sub)
                    else VerificationFailed (out_of sub)).
    assert (Hsay : (if truthy passed then say (VerificationPassed (out_of sub))
                    else say (VerificationFailed (out_of sub)))
                   = say verdict) by (unfold verdict; now destruct (truthy passed)).
    rewrite Hsay in Hrun.
    rewrite (gbind_run _ _ _ _ _ (say_run _ _)) in Hrun.
    rewrite (gbind_run _ _ _ _ _ (set_progress_value_run _ _)) in Hrun.
    cbn [disk_dirs disk_files console button progress_maximum progress_value dialogs]
      in Hrun.
    destruct (IH _ _ _ _ Hrun) as ((Hb5 & Hm5 & Hd5) & k & Hk & Hv5 & Hiff).
    cbn [disk_dirs disk_files console button progress_maximum progress_value dialogs]
      in Hb5, Hm5, Hd5, Hv5.
    split.
    + unfold same_window. rewrite Hb5, Hm5, Hd5.
      now rewrite Hb3, Hm3, Hd3, Hb2, Hm2, Hd2.
    + exists (S k). split; [simpl; lia|]. split.
      * assert (Hverdict : verdicts [inr verdict] = [out_of sub])
          by (unfold verdict; now destruct (truthy passed)).
        rewrite Hv5, verdicts_app, Hverdict, Hv3, Hv2. unfold d1. cbn [console].
        rewrite verdicts_app.
        change (verdicts [inr (ProcessingFolder sub)]) with (@nil string).
        rewrite app_nil_r, <- app_assoc. reflexivity.
      * rewrite <- Hiff. simpl. lia.
Qed.

Lemma desk_eta (d : Desk) :
  mkDesk (disk_dirs d) (disk_files d) (console d) (button d)
         (progress_maximum d) (progress_value d) (dialogs d) = d.
Proof. now destruct d. Qed.

Lemma list_subfolders_run (input_folder : string) (d : Desk) (entries : list string) :
  disk_dirs d !! input_folder = Some entries ->
  list_subfolders input_folder d = (Ok (subfolders_of input_folder d), d).
Proof.
  intros Hdir. unfold list_subfolders, subfolders_of.
  assert (Hcall : call (os_listdir input_folder) d = (Ok entries, d)).
  { rewrite (call_run _ d (Ok entries) (mkWorld (disk_dirs d) (disk_files d) [])).
    - simpl. now rewrite app_nil_r, desk_eta.
    - now apply os_listdir_run. }
  rewrite (gbind_run _ _ _ _ _ Hcall), Hdir. reflexivity.
Qed.

Lemma list_subfolders_missing (input_folder : string) (d : Desk) :
  disk_dirs d !! input_folder = None ->
  list_subfolders input_folder d = (Raise FileNotFoundError, d).
Proof.
  intros Hdir. unfold list_subfolders.
  assert (Hcall : call (os_listdir input_folder) d = (Raise FileNotFoundError, d)).
  { rewrite (call_run _ d (Raise FileNotFoundError)
                      (mkWorld (disk_dirs d) (disk_files d) [])).
    - simpl. now rewrite app_nil_r, desk_eta.
    - unfold os_listdir. simpl. now rewrite Hdir. }
  now rewrite (gbind_raise _ _ _ _ _ Hcall).
Qed.

(** A batch whose input folder is there: one message box, the controls
    back where they were, and the verdicts of the first [k] subfolders. *)
Lemma process_folders_outcome (input_folder : string) (d : Desk) (entries : list string) :
  disk_dirs d !! input_folder = Some entries ->
  let subfolders := subfolders_of input_folder d in
  exists (k : nat) (box : dialog) (d' : Desk),
    process_folders lib input_folder output_folder target d = (Ok tt, d')
    /\ button d' = NORMAL /\ progress_value d' = 0
    /\ progress_maximum d' = Z.of_nat (length subfolders)
    /\ dialogs d' = dialogs d ++ [box]
    /\ (k <= length subfolders)%nat
    /\ verdicts (console d') = verdicts (console d) ++ take k (map out_of subfolders)
    /\ (box = success <-> k = length subfolders).
Proof.
  intros Hdir subfolders. unfold process_folders.
  unfold mbind at 1, G_bind at 1. cbn [button_config].
  set (d0 := mkDesk _ _ _ DISABLED _ _ _).
  unfold try_finally, try_except.
  rewrite (gbind_run _ _ _ _ _ (list_subfolders_run input_folder d0 entries Hdir)).
  change (subfolders_of input_folder d0) with subfolders.
  unfold mbind at 1, G_bind at 1. cbn [set_progress_maximum].
  set (d1 := mkDesk _ _ _ _ (Z.of_nat (length subfolders)) _ _).
  unfold mbind at 1, G_bind at 1.
  destruct (process_each lib output_folder target 1 subfolders d1) as [r d2] eqn:Hloop.
  destruct (process_each_verdicts subfolders 1 d1 d2 r Hloop)
    as ((Hb & Hm & Hd) & k & Hk & Hv & Hiff).
  destruct r as [[]|e].
  - exists k, success. eexists. split; [reflexivity|].
    cbn [disk_dirs disk_files console button progress_maximum progress_value dialogs
         messagebox button_config set_progress_value mbind G_bind fst snd].
    rewrite Hm, Hd, Hv. repeat split; try reflexivity; try assumption.
    intros _. now apply Hiff.
  - exists k, (showerror "Error" e). eexists. split; [reflexivity|].
    cbn [disk_dirs disk_files console button progress_maximum progress_value dialogs
         messagebox button_config set_progress_value mbind G_bind fst snd].
    rewrite Hm, Hd, Hv. repeat split; try reflexivity; try assumption;
      try discriminate.
    intros Hall. apply Hiff in Hall. discriminate.
Qed.

Lemma process_folders_missing (input_folder : string) (d : Desk) :
  disk_dirs d !! input_folder = None ->
  process_folders lib input_folder output_folder target d
  = (Ok tt, mkDesk (disk_dirs d) (disk_files d) (console d) NORMAL
                   (progress_maximum d) 0
                   (dialogs d ++ [showerror "Error" FileNotFoundError])).
Proof.
  intros Hdir. unfold process_folders.
  unfold mbind at 1, G_bind at 1. cbn [button_config].
  set (d0 := mkDesk _ _ _ DISABLED _ _ _).
  unfold try_finally, try_except.
  rewrite (gbind_raise _ _ _ _ _ (list_subfolders_missing input_folder d0 Hdir)).
  reflexivity.
Qed.

End DriverFacts.

(** X11. Whatever happens in a batch, [process_folders] itself returns
    normally, with the button enabled again, the progress bar back at zero
    and exactly one message box shown. *)
Theorem batch_always_restores_the_window (lib : Library)
    (input_folder output_folder : string) (target : R) (d : Desk) :
  exists (box : dialog) (d' : Desk),
    process_folders lib input_folder output_folder target d = (Ok tt, d')
    /\ button d' = NORMAL /\ progress_value d' = 0
    /\ dialogs d' = dialogs d ++ [box].
Proof.
  destruct (disk_dirs d !! input_folder) as [entries|] eqn:Hdir.
  - destruct (process_folders_outcome lib output_folder target input_folder d entries Hdir)
      as (k & box & d' & Hrun & Hb & Hv & _ & Hd & _).
    now exists box, d'.
  - rewrite (process_folders_missing lib output_folder target input_folder d Hdir).
    eexists _, _. now repeat split.
Qed.

(** X12. An input folder that is not there: the listing raises, the error box
    names [FileNotFoundError], and nothing else changes, not even the
    maximum of the progress bar. *)
Theorem missing_input_folder_is_reported (lib : Library)
    (input_folder output_folder : string) (target : R) (d : Desk) :
  disk_dirs d !! input_folder = None ->
  process_folders lib input_folder output_folder target d
  = (Ok tt, mkDesk (disk_dirs d) (disk_files d) (console d) NORMAL
                   (progress_maximum d) 0
                   (dialogs d ++ [showerror "Error" FileNotFoundError])).
Proof. apply process_folders_missing. Qed.

Lemma missing_input_folder_is_reported_witness :
  process_folders (test_library (-20)) "in" "out" (-14) empty_desk
  = (Ok tt, mkDesk ∅ ∅ [] NORMAL 100 0 [showerror "Error" FileNotFoundError]).
Proof.
  apply (missing_input_folder_is_reported (test_library (-20)) "in" "out" (-14) empty_desk).
  reflexivity.
Defined.

(** X13. An input folder none of whose entries is a directory, a song folder
    picked by mistake for instance: no stem is read, nothing is printed or
    written, the progress maximum becomes 0, and the box says success. *)
Theorem batch_without_subfolders_reports_success (lib : Library)
    (input_folder output_folder : string) (target : R) (d : Desk)
    (entries : list string) :
  disk_dirs d !! input_folder = Some entries ->
  Forall (fun entry => disk_dirs d !! os_path_join input_folder entry = None) entries ->
  process_folders lib input_folder output_folder target d
  = (Ok tt, mkDesk (disk_dirs d) (disk_files d) (console d) NORMAL 0 0
                   (dialogs d ++ [success])).
Proof.
  intros Hdir Hnone. unfold process_folders.
  unfold mbind at 1, G_bind at 1. cbn [button_config].
  set (d0 := mkDesk _ _ _ DISABLED _ _ _).
  unfold try_finally, try_except.
  rewrite (gbind_run _ _ _ _ _ (list_subfolders_run input_folder d0 entries Hdir)).
  assert (Hsubs : subfolders_of input_folder d0 = []).
  { unfold subfolders_of. change (disk_dirs d0) with (disk_dirs d). rewrite Hdir. simpl.
    clear Hdir. induction Hnone as [|entry entries Hentry _ IH]; [reflexivity|].
    simpl. unfold os_path_isdir at 1. change (disk_dirs d0) with (disk_dirs d).
    now rewrite Hentry. }
  rewrite Hsubs. reflexivity.
Qed.

Lemma batch_without_subfolders_reports_success_witness :
  process_folders (test_library (-20)) "in/song" "out" (-14) song_desk
  = (Ok tt, mkDesk (dirs song_world) (files song_world) [] NORMAL 0 0 [success]).
Proof.
  apply (batch_without_subfolders_reports_success (test_library (-20)) "in/song" "out"
           (-14) song_desk song_listing).
  - reflexivity.
  - repeat constructor.
Defined.

(** X14. A first subfolder without audio files stops the batch: the pipeline
    prints that it found none and creates no output folder, the verifier is
    called on that folder all the same and raises ([FileNotFoundError] when
    the folder is not there, [NameError] when it is there without audio),
    and the subfolders after it are not visited. *)
Theorem subfolder_without_audio_stops_the_batch (lib : Library)
    (input_folder output_folder : string) (target : R) (d : Desk)
    (entries listing others : list string) (subfolder_path : string) :
  disk_dirs d !! input_folder = Some entries ->
  subfolders_of input_folder d = subfolder_path :: others ->
  disk_dirs d !! subfolder_path = Some listing ->
  Forall (fun fn => has_audio_extension fn = false) listing ->
  Forall (fun fn => has_audio_extension fn = false)
         (default [] (disk_dirs d
                      !! output_folder_of lib subfolder_path target output_folder)) ->
  process_folders lib input_folder output_folder target d
  = (Ok tt,
     mkDesk (disk_dirs d) (disk_files d)
            (console d ++ [inr (ProcessingFolder subfolder_path);
                           inl (NoAudioFilesFound subfolder_path)])
            NORMAL (Z.of_nat (S (length others))) 0
            (dialogs d ++ [showerror "Error"
                             (match disk_dirs d
                                    !! output_folder_of lib subfolder_path target
                                                        output_folder with
                              | Some _ => NameError "stems_folder"
                              | None => FileNotFoundError
                              end)])).
Proof.
  intros Hdir Hsubs Hsub Hnone Hout. unfold process_folders.
  unfold mbind at 1, G_bind at 1. cbn [button_config].
  set (d0 := mkDesk _ _ _ DISABLED _ _ _).
  unfold try_finally, try_except.
  rewrite (gbind_run _ _ _ _ _ (list_subfolders_run input_folder d0 entries Hdir)).
  change (subfolders_of input_folder d0) with (subfolders_of input_folder d).
  rewrite Hsubs.
  unfold mbind at 1, G_bind at 1. cbn [set_progress_maximum].
  set (d1 := mkDesk _ _ _ _ (Z.of_nat _) _ _).
  unfold mbind at 1, G_bind at 1. cbn [process_each].
  rewrite (gbind_run _ _ _ _ _ (say_run _ _)).
  set (d2 := mkDesk _ _ (console d1 ++ _) _ _ _ _).
  set (w := mkWorld (disk_dirs d) (disk_files d) []).
  assert (Hadj : adjust_stems_in_folder lib subfolder_path target output_folder w
                 = (Ok tt, mkWorld (dirs w) (files w)
                                   (stdout w ++ [NoAudioFilesFound subfolder_path]))).
  { unfold adjust_stems_in_folder.
    rewrite (bind_run _ _ _ _ _ (os_listdir_run _ w _ Hsub)).
    now rewrite (bind_run _ _ _ _ _ (load_stems_no_audio lib _ _ _ Hnone)). }
  rewrite (gbind_run _ _ _ _ _ (call_run _ d2 _ _ Hadj)).
  cbv zeta. fold (output_folder_of lib subfolder_path target output_folder).
  fold (output_folder_of lib subfolder_path target output_folder).
  cbn [dirs files stdout w app fmap list_fmap].
  set (d3 := mkDesk _ _ (console d2 ++ _) _ _ _ _).
  assert (Hver : verify_output_loudness lib (output_folder_of lib subfolder_path target output_folder) target w
                 = (Raise (match disk_dirs d !! output_folder_of lib subfolder_path target output_folder with
                           | Some _ => NameError "stems_folder"
                           | None => FileNotFoundError
                           end), w)).
  { destruct (disk_dirs d !! output_folder_of lib subfolder_path target output_folder) as [outs|] eqn:Houts.
    - exact (verify_no_audio_raises lib w _ target outs Houts Hout).
    - unfold verify_output_loudness.
      apply bind_raise. unfold os_listdir. change (dirs w) with (disk_dirs d).
      now rewrite Houts. }
  rewrite (gbind_raise _ _ _ _ _ (call_run _ d3 _ _ Hver)).
  unfold d3, d2, d1, d0. cbn. now rewrite <- !app_assoc, app_nil_r.
Qed.

Lemma subfolder_without_audio_stops_the_batch_witness :
  process_folders (test_library (-20)) "in" "out" (-14) notes_desk
  = (Ok tt,
     mkDesk (disk_dirs notes_desk) (disk_files notes_desk)
            [inr (ProcessingFolder "in/notes"); inl (NoAudioFilesFound "in/notes")]
            NORMAL 1 0 [showerror "Error" FileNotFoundError]).
Proof.
  apply (subfolder_without_audio_stops_the_batch (test_library (-20)) "in" "out" (-14)
           notes_desk ["notes"]%string ["notes.txt"]%string [] "in/notes").
  - reflexivity.
  - reflexivity.
  - reflexivity.
  - repeat constructor.
  - constructor.
Defined.

(** X15. With the input folder there, the box says success exactly when every
    subfolder got a verdict, passed or failed: the folders with a verdict
    are the first [k] subfolders in listing order, the box is the success
    box if and only if [k] is their number, and the progress maximum is
    that number. *)
Theorem success_iff_every_subfolder_got_a_verdict (lib : Library)
    (input_folder output_folder : string) (target : R) (d : Desk)
    (entries : list string) :
  disk_dirs d !! input_folder = Some entries ->
  exists (k : nat) (box : dialog) (d' : Desk),
    process_folders lib input_folder output_folder target d = (Ok tt, d')
    /\ dialogs d' = dialogs d ++ [box]
    /\ progress_maximum d' = Z.of_nat (length (subfolders_of input_folder d))
    /\ (k <= length (subfolders_of input_folder d))%nat
    /\ verdicts (console d')
       = verdicts (console d)
         ++ take k (map (fun subfolder_path =>
                           output_folder_of lib subfolder_path target output_folder)
                        (subfolders_of input_folder d))
    /\ (box = success <-> k = length (subfolders_of input_folder d)).
Proof.
  intros Hdir.
  destruct (process_folders_outcome lib output_folder target input_folder d entries Hdir)
    as (k & box & d' & Hrun & _ & _ & Hm & Hd & Hk & Hv & Hiff).
  now exists k, box, d'.
Qed.

Lemma success_iff_every_subfolder_got_a_verdict_witness :
  exists (k : nat) (box : dialog) (d' : Desk),
    process_folders (test_library (-20)) "in" "out" (-14) notes_desk = (Ok tt, d')
    /\ dialogs d' = dialogs notes_desk ++ [box]
    /\ progress_maximum d' = Z.of_nat (length (subfolders_of "in" notes_desk))
    /\ (k <= length (subfolders_of "in" notes_desk))%nat
    /\ verdicts (console d')
       = verdicts (console notes_desk)
         ++ take k (map (fun subfolder_path =>
                           output_folder_of (test_library (-20)) subfolder_path (-14) "out")
                        (subfolders_of "in" notes_desk))
    /\ (box = success <-> k = length (subfolders_of "in" notes_desk)).
Proof.
  apply (success_iff_every_subfolder_got_a_verdict (test_library (-20)) "in" "out" (-14)
           notes_desk ["notes"]%string).
  reflexivity.
Defined.

(** ** From the run to the verifier *)

Lemma add_entry_new (filename : string) (entries : list string) :
  filename ∉ entries -> add_entry filename entries = entries ++ [filename].
Proof.
  intros Hnot. unfold add_entry.
  destruct (existsb (String.eqb filename) entries) eqn:E; [|reflexivity].
  apply existsb_exists in E as (x & Hin & Heq). apply String.eqb_eq in Heq. subst x.
  exfalso. now apply Hnot, list_elem_of_In.
Qed.

Lemma add_entry_again (filename : string) (entries : list string) :
  add_entry filename (add_entry filename entries) = add_entry filename entries.
Proof.
  unfold add_entry.
  destruct (existsb (String.eqb filename) entries) eqn:E.
  - now rewrite E.
  - rewrite existsb_app. simpl. rewrite String.eqb_refl.
    now rewrite orb_true_r.
Qed.

Lemma add_entries_new (names : list string) :
  forall entries : list string,
    NoDup (entries ++ names) ->
    foldl (fun es fn => add_entry fn es) entries names = entries ++ names.
Proof.
  induction names as [|fn names IH]; intros entries Hnd; simpl.
  - now rewrite app_nil_r.
  - apply NoDup_app in Hnd as (Hnd1 & Hdisj & Hnd2).
    apply NoDup_cons in Hnd2 as [Hnot Hnd2].
    rewrite add_entry_new.
    + rewrite IH; [now rewrite <- app_assoc|].
      apply NoDup_app. split; [|split].
      * apply NoDup_app. split; [exact Hnd1|]. split; [|apply NoDup_singleton].
        intros x Hx Hx'. apply list_elem_of_singleton in Hx' as ->.
        apply (Hdisj fn Hx). constructor.
      * intros x Hx Hx'. apply elem_of_app in Hx as [Hx|Hx].
        -- apply (Hdisj x Hx). now constructor.
        -- apply list_elem_of_singleton in Hx as ->. contradiction.
      * exact Hnd2.
    + intros Hin. apply (Hdisj fn Hin). constructor.
Qed.

(** One export, with the directory entry it makes. *)
Lemma export_leaves (seg : AudioSegment) (folder filename : string) (w : World)
    (entries : list string) :
  dirs w !! folder = Some entries ->
  wav_exportable seg = true ->
  export seg folder filename w
  = (Ok tt, mkWorld (<[folder := add_entry filename entries]> (dirs w))
                    (<[os_path_join folder filename := wav_file seg]> (files w))
                    (stdout w)).
Proof.
  intros Hdir Hok. unfold export.
  unfold mbind, M_bind, bind, write_file. rewrite Hdir, (export_wav_ok _ Hok). simpl.
  rewrite lookup_insert_eq, !insert_insert_eq. now rewrite add_entry_again.
Qed.

Lemma export_all_leaves (folder : string) (pairs : list (string * AudioSegment)) :
  forall (w : World) (entries : list string),
    dirs w !! folder = Some entries ->
    Forall (fun p => wav_exportable p.2 = true) pairs ->
    export_all folder pairs w
    = (Ok tt, mkWorld (<[folder := foldl (fun es fn => add_entry fn es) entries
                                         (map fst pairs)]> (dirs w))
                      (exported folder pairs (files w))
                      (stdout w)).
Proof.
  induction pairs as [|[fn seg] pairs IH]; intros w entries Hdir Hall.
  - simpl. unfold exported. simpl. rewrite insert_id by exact Hdir. now destruct w.
  - inversion Hall as [|? ? Hseg Hrest]; subst. simpl in Hseg.
    cbn [export_all].
    rewrite (bind_run _ _ _ _ _ (export_leaves seg folder fn w entries Hdir Hseg)).
    rewrite (IH _ (add_entry fn entries)); [|simpl; apply lookup_insert_eq | exact Hrest].
    simpl. now rewrite insert_insert_eq.
Qed.

Lemma filter_again {A} (f : A -> bool) (l : list A) :
  List.filter f (List.filter f l) = List.filter f l.
Proof.
  induction l as [|x l IH]; [reflexivity|]. simpl.
  destruct (f x) eqn:E; [|exact IH]. simpl. now rewrite E, IH.
Qed.

Section Pipeline.

Context (lib : Library).
Variables (w : World) (folder output_base_folder : string) (target : R).
Variables (listing : list string) (first : AudioSegment) (rest : list AudioSegment).
Variables (mix : AudioSegment) (level : R).

Let stems := first :: rest.
Let names := List.filter has_audio_extension listing.
Let gain := (target - level)%R.
Let output_folder := output_folder_of lib folder target output_base_folder.
Let adjusted_stems := map (fun stem => adjust_gain stem gain) stems.

Hypothesis Hdir : dirs w !! folder = Some listing.
Hypothesis Hdisc : discovers lib w folder listing stems.
Hypothesis Hmix : build_mix lib first stems = Ok mix.
Hypothesis Hlevel : calculate_loudness lib mix = Ok level.
Hypothesis Hfree : files w !! output_folder = None.
Hypothesis Hnew : dirs w !! output_folder = None.
Hypothesis Hexportable : Forall (fun stem => wav_exportable stem = true) stems.
Hypothesis Hnodup : NoDup listing.
Hypothesis Hplain : Forall plain_name listing.

Let ran : World :=
  after_run lib w folder output_base_folder target listing stems level.

Lemma names_length : length names = length adjusted_stems.
Proof.
  unfold adjusted_stems. rewrite length_map. exact (Forall2_length _ _ _ Hdisc).
Qed.

Lemma adjust_stems_in_folder_leaves :
  adjust_stems_in_folder lib folder target output_base_folder w = (Ok tt, ran).
Proof.
  unfold adjust_stems_in_folder.
  rewrite (bind_run _ _ _ _ _ (os_listdir_run _ _ _ Hdir)).
  rewrite (bind_run _ _ _ _ _ (discovery_run lib w folder listing first rest Hdisc)).
  rewrite (bind_run _ _ _ _ _ (lift_run _ _ _ Hmix)).
  rewrite (bind_run _ _ _ _ _ (lift_run _ _ _ Hlevel)).
  rewrite (bind_run _ _ _ _ _ (print_run _ _)). cbv zeta.
  rewrite (bind_run _ _ _ _ _ (print_run _ _)). cbn [dirs files stdout].
  fold stems names gain output_folder adjusted_stems.
  set (w2 := mkWorld (dirs w) (files w)
                     ((stdout w ++ [DetectedLoudness level]) ++ [GainToApply gain])).
  assert (Hmk : os_makedirs output_folder w2
                = (Ok tt, mkWorld (<[output_folder := []]> (dirs w)) (files w) (stdout w2))).
  { unfold os_makedirs. simpl. now rewrite Hfree, Hnew. }
  rewrite (bind_run _ _ _ _ _ Hmk).
  rewrite (bind_run _ _ _ _ _
             (export_all_leaves output_folder (zip names adjusted_stems) _ []
                (lookup_insert_eq _ _ _)
                (exportable_pairs gain stems Hexportable names))).
  unfold print, ran, after_run. fold names gain output_folder adjusted_stems. cbn [dirs files stdout w2]. f_equal. f_equal.
  - rewrite insert_insert_eq. f_equal.
    rewrite fst_zip by (rewrite names_length; lia).
    rewrite add_entries_new; [reflexivity|].
    now apply filter_NoDup.
  - now rewrite <- !app_assoc.
Qed.

Hypothesis Hdecode :
  forall (fn : string) (stem : AudioSegment),
    (fn, stem) ∈ zip names adjusted_stems ->
    decode lib (os_path_join output_folder fn) (wav_file stem) = Some stem.

Lemma written_discovers_adjusted :
  discovers lib ran output_folder names adjusted_stems.
Proof.
  unfold discovers, names. rewrite filter_again. fold names.
  apply Forall2_same_length_lookup_2; [exact names_length|].
  intros i fn stem' Hfn Hstem'.
  unfold adjusted_stems in Hstem'. apply list_lookup_fmap_Some in Hstem' as (stem & -> & Hstem).
  pose proof (zip_lookup names (fun stem => adjust_gain stem gain) stems i fn stem
                Hfn Hstem) as Hpair.
  unfold from_file, ran, after_run. cbn [files].
  fold names gain output_folder adjusted_stems.
  rewrite (exported_lookup output_folder (zip names adjusted_stems) (files w) i fn
             (adjust_gain stem gain)).
  - rewrite Hdecode; [reflexivity|]. now apply list_elem_of_lookup_2 with i.
  - rewrite zip_keys by exact names_length.
    apply keys_NoDup; [now apply filter_NoDup | now apply filter_plain].
  - exact Hpair.
Qed.

Variables (mix' : AudioSegment) (level' : R).

Hypothesis Hmix' : build_mix lib (adjust_gain first gain) adjusted_stems = Ok mix'.
Hypothesis Hlevel' : calculate_loudness lib mix' = Ok level'.

Lemma verify_after_run :
  verify_output_loudness lib output_folder target ran
  = (Ok (Some (np_isclose level' target (1 / 100000) (1 / 10))),
     mkWorld (dirs ran) (files ran)
             (stdout ran ++ [CombinedLoudness level'])).
Proof.
  apply (verify_output_loudness_run lib ran output_folder target names
           (adjust_gain first gain) (map (fun stem => adjust_gain stem gain) rest)
           mix' level').
  - apply lookup_insert_eq.
  - fold names. exact written_discovers_adjusted.
  - exact Hmix'.
  - exact Hlevel'.
Qed.


End Pipeline.

(** The decoder of the examples reads back what [export] writes. *)
Lemma wav_decode_wav_file (path : string) (seg : AudioSegment) :
  wav_exportable seg = true -> samples_ok seg ->
  wav_decode path (wav_file seg) = Some seg.
Proof.
  intros Hok Hsamples. unfold wav_decode.
  rewrite (sf_read_samples _ Hok Hsamples).
  destruct (wav_file_fields seg) as (_ & _ & _ & _ & _ & H6 & H7 & H8).
  destruct (wav_file_body seg) as [Hbody Hlen].
  unfold wav_exportable, header_fits in Hok.
  rewrite !andb_true_iff, !Z.leb_le, !fits_spec in Hok.
  destruct Hok as [[[[Hch Hw1] Hw4] Hr] [[[[Hfl Hfc] Hfr] _] _]].
  rewrite le_value_le_bytes in H6 by (change (256 ^ Z.of_nat 2) with (2 ^ 16); lia).
  rewrite le_value_le_bytes in H7 by (change (256 ^ Z.of_nat 4) with (2 ^ 32); lia).
  rewrite le_value_le_bytes in H8 by (change (256 ^ Z.of_nat 2) with 65536; lia).
  rewrite le_value_le_bytes in Hlen by (change (256 ^ Z.of_nat 4) with (2 ^ 32); lia).
  rewrite H6, H7, H8, Hbody, Hlen.
  rewrite Nat2Z.id, firstn_all, Z.div_mul by lia.
  rewrite pcm_for_wav_length.
  rewrite Nat.mul_comm, Nat.div_mul by lia.
  unfold pcm_for_wav. rewrite read_samples_flat_map, map_map.
  destruct seg as [width rate ch d]. cbn [sample_width frame_rate channels data] in *.
  do 2 f_equal.
  rewrite <- (map_id d) at 2. apply map_ext_in. intros s Hs.
  unfold samples_ok in Hsamples. rewrite List.Forall_forall in Hsamples.
  cbn [sample_width data] in Hsamples.
  apply sample_read_back; [lia | now apply Hsamples].
Qed.

Lemma adjust_gain_0 (stem : AudioSegment) : samples_ok stem -> adjust_gain stem 0 = stem.
Proof.
  intros Hok. unfold adjust_gain, apply_gain, spawn.
  rewrite db_to_float_0, (audioop_mul_1 _ _ Hok).
  now destruct stem.
Qed.

Lemma samples_ok_drums : samples_ok drums.
Proof.
  unfold samples_ok, drums; simpl.
  repeat (constructor; [split; intro; discriminate|]). constructor.
Qed.

(** The song of the examples at a gain of zero: measured at the target. *)
Lemma song_unchanged (stem : AudioSegment) :
  stem ∈ [drums; vocals] -> adjust_gain stem (-14 - -14) = stem.
Proof.
  intros Hin. replace (-14 - -14)%R with 0%R by lra.
  apply adjust_gain_0.
  apply elem_of_cons in Hin as [->|Hin]; [exact samples_ok_drums|].
  apply list_elem_of_singleton in Hin as ->. exact samples_ok_vocals.
Qed.

Lemma song_decodes_back (names : list string) (path : string)
    (fn : string) (stem : AudioSegment) :
  (fn, stem) ∈ zip names (map (fun stem => adjust_gain stem (-14 - -14)) [drums; vocals]) ->
  wav_decode path (wav_file stem) = Some stem.
Proof.
  intros Hin.
  apply elem_of_zip_r in Hin. apply list_elem_of_fmap in Hin as (s & -> & Hs).
  rewrite (song_unchanged s Hs).
  apply elem_of_cons in Hs as [->|Hs].
  - apply wav_decode_wav_file; [reflexivity | exact samples_ok_drums].
  - apply list_elem_of_singleton in Hs as ->.
    apply wav_decode_wav_file; [reflexivity | exact samples_ok_vocals].
Qed.

Lemma song_mix_again (level : R) :
  build_mix (test_library level) (adjust_gain drums (-14 - -14))
            (map (fun stem => adjust_gain stem (-14 - -14)) [drums; vocals])
  = Ok drums_and_vocals.
Proof.
  simpl map. rewrite !song_unchanged by (apply list_elem_of_In; simpl; tauto).
  exact (song_mix _).
Qed.


(** ** A batch of one folder *)

Lemma discovers_same_files (lib : Library) (w w' : World) (folder : string)
    (listing : list string) (stems : list AudioSegment) :
  files w' = files w ->
  discovers lib w folder listing stems -> discovers lib w' folder listing stems.
Proof.
  intros Hfiles Hd. unfold discovers in *. apply (Forall2_impl _ _ _ _ Hd).
  intros fn stem. unfold from_file. rewrite Hfiles.
  destruct (files w !! os_path_join folder fn) as [b|]; [|discriminate].
  destruct (decode lib (os_path_join folder fn) b); [|discriminate].
  now intros [= ->].
Qed.

(** X17. A batch of one subfolder in which the run and the verifier both
    return: whatever the verifier says, the only trace of it is the line
    "passed" or "failed" on the console; the box says success, the maximum
    is 1 and the bar is back at 0. *)
Theorem verdict_is_only_printed (lib : Library) (input_folder output_folder : string)
    (target : R) (d : Desk) (entries : list string) (subfolder_path : string)
    (w1 w2 : World) (passed : option bool) :
  disk_dirs d !! input_folder = Some entries ->
  subfolders_of input_folder d = [subfolder_path] ->
  adjust_stems_in_folder lib subfolder_path target output_folder (disk d) = (Ok tt, w1) ->
  verify_output_loudness lib (output_folder_of lib subfolder_path target output_folder)
                         target (mkWorld (dirs w1) (files w1) [])
  = (Ok passed, w2) ->
  process_folders lib input_folder output_folder target d
  = (Ok tt,
     mkDesk (dirs w2) (files w2)
            (console d ++ [inr (ProcessingFolder subfolder_path)]
             ++ (inl <$> stdout w1) ++ (inl <$> stdout w2)
             ++ [inr (if truthy passed
                      then VerificationPassed
                             (output_folder_of lib subfolder_path target output_folder)
                      else VerificationFailed
                             (output_folder_of lib subfolder_path target output_folder))])
            NORMAL 1 0 (dialogs d ++ [success])).
Proof.
  intros Hdir Hsubs Hadj Hver.
  set (output_subfolder := output_folder_of lib subfolder_path target output_folder).
  unfold process_folders.
  unfold mbind at 1, G_bind at 1. cbn [button_config].
  set (d0 := mkDesk _ _ _ DISABLED _ _ _).
  unfold try_finally, try_except.
  rewrite (gbind_run _ _ _ _ _ (list_subfolders_run input_folder d0 entries Hdir)).
  change (subfolders_of input_folder d0) with (subfolders_of input_folder d).
  rewrite Hsubs.
  unfold mbind at 1, G_bind at 1. cbn [set_progress_maximum].
  set (d1 := mkDesk _ _ _ _ (Z.of_nat _) _ _).
  unfold mbind at 1, G_bind at 1. cbn [process_each].
  rewrite (gbind_run _ _ _ _ _ (say_run _ _)).
  set (d2 := mkDesk _ _ (console d1 ++ _) _ _ _ _).
  rewrite (gbind_run _ _ _ _ _ (call_run _ d2 _ _ Hadj)).
  cbv zeta. fold (output_folder_of lib subfolder_path target output_folder).
  fold output_subfolder.
  set (d3 := mkDesk _ _ (console d2 ++ _) _ _ _ _).
  rewrite (gbind_run _ _ _ _ _ (call_run _ d3 _ _ Hver)).
  assert (Hsay : (if truthy passed then say (VerificationPassed output_subfolder)
                  else say (VerificationFailed output_subfolder))
                 = say (if truthy passed then VerificationPassed output_subfolder
                        else VerificationFailed output_subfolder))
    by now destruct (truthy passed).
  rewrite Hsay.
  rewrite (gbind_run _ _ _ _ _ (say_run _ _)).
  rewrite (gbind_run _ _ _ _ _ (set_progress_value_run _ _)).
  unfold d3, d2, d1, d0.
  cbn [process_each mret G_ret messagebox button_config set_progress_value mbind G_bind
       disk_dirs disk_files console button progress_maximum progress_value dialogs
       Z.of_nat length Pos.of_succ_nat].
  now rewrite <- !app_assoc.
Qed.

Lemma batch_discovers (level : R) :
  discovers (test_library level) (disk batch_desk) "in/song" song_listing [drums; vocals].
Proof. repeat constructor. Qed.

Lemma verdict_is_only_printed_witness :
  process_folders (test_library (-14)) "in" "out" (-14) batch_desk
  = (Ok tt,
     mkDesk (dirs song_written) (files song_written)
            (console batch_desk ++ [inr (ProcessingFolder "in/song")]
             ++ (inl <$> stdout song_written)
             ++ (inl <$> [CombinedLoudness (-14)])
             ++ [inr (if truthy (Some (np_isclose (-14) (-14) (1 / 100000) (1 / 10)))
                      then VerificationPassed
                             (output_folder_of (test_library (-14)) "in/song" (-14) "out")
                      else VerificationFailed
                             (output_folder_of (test_library (-14)) "in/song" (-14) "out"))])
            NORMAL 1 0 (dialogs batch_desk ++ [success])).
Proof.
  assert (Hnodup : NoDup song_listing)
    by (apply (bool_decide_unpack _); vm_compute; exact I).
  assert (Hplain : Forall plain_name song_listing) by (repeat constructor).
  apply (verdict_is_only_printed (test_library (-14)) "in" "out" (-14) batch_desk
           ["song"]%string "in/song" song_written
           (mkWorld (dirs song_written) (files song_written) [CombinedLoudness (-14)])).
  - reflexivity.
  - reflexivity.
  - exact (adjust_stems_in_folder_leaves (test_library (-14)) (disk batch_desk)
             "in/song" "out" (-14) song_listing drums [vocals] drums_and_vocals (-14)
             eq_refl (batch_discovers _) (song_mix _) (song_level _) eq_refl eq_refl
             song_exportable Hnodup).
  - apply (verify_output_loudness_run (test_library (-14))
             (mkWorld (dirs song_written) (files song_written) [])
             "out/song_-14.0LUFS" (-14) ["drums.wav"; "vocals.MP3"]%string
             (adjust_gain drums (-14 - -14)) [adjust_gain vocals (-14 - -14)]
             drums_and_vocals (-14)).
    + apply lookup_insert_eq.
    + apply (discovers_same_files _ song_written); [reflexivity|].
      exact (written_discovers_adjusted (test_library (-14)) (disk batch_desk)
               "in/song" "out" (-14) song_listing drums [vocals] (-14)
               (batch_discovers _) Hnodup Hplain
               (fun fn stem => song_decodes_back _ _ fn stem)).
    + exact (song_mix_again _).
    + exact (song_level _).
Defined.

(** ** The name of the output folder *)

Lemma append_assoc (a b c : string) : ((a +:+ b) +:+ c = a +:+ (b +:+ c))%string.
Proof.
  induction a as [|x a IH]; [reflexivity|].
  change (String x ((a +:+ b) +:+ c) = String x (a +:+ (b +:+ c)))%string.
  now f_equal.
Qed.

Lemma append_nil_r (a : string) : (a +:+ "" = a)%string.
Proof.
  induction a as [|x a IH]; [reflexivity|].
  change (String x (a +:+ "") = String x a)%string. now f_equal.
Qed.

Lemma basename_aux_app (p q : string) :
  forall acc : string,
    os_path_basename_aux (p +:+ q) acc
    = os_path_basename_aux q (os_path_basename_aux p acc).
Proof.
  induction p as [|c p IH]; intros acc; simpl; [reflexivity|].
  destruct (Ascii.eqb c "/"); apply IH.
Qed.

Lemma basename_aux_slash_free (q : string) :
  forall acc : string,
    slash_free q = true -> os_path_basename_aux q acc = (acc +:+ q)%string.
Proof.
  induction q as [|c q IH]; intros acc Hq; simpl in *.
  - now rewrite append_nil_r.
  - apply andb_true_iff in Hq as [Hc Hq].
    destruct (Ascii.eqb c "/"); [discriminate|].
    rewrite (IH _ Hq), append_assoc. reflexivity.
Qed.

Lemma slash_free_plain (name : string) : slash_free name = true -> plain_name name.
Proof.
  unfold plain_name. destruct name as [|c name]; [reflexivity|].
  destruct c as [[] [] [] [] [] [] [] []]; try reflexivity. discriminate.
Qed.

Lemma basename_join (parent name : string) :
  slash_free name = true -> os_path_basename (os_path_join parent name) = name.
Proof.
  intros Hname. unfold os_path_basename, os_path_join.
  rewrite (slash_free_plain _ Hname).
  destruct (String.eqb parent "") eqn:Hempty.
  - apply String.eqb_eq in Hempty as ->. simpl.
    now rewrite basename_aux_slash_free.
  - simpl. destruct (endswith parent "/") eqn:Hend.
    + apply endswith_spec in Hend as [pre ->].
      rewrite !basename_aux_app. simpl.
      now rewrite basename_aux_slash_free.
    + rewrite !basename_aux_app. simpl.
      now rewrite basename_aux_slash_free.
Qed.

(** X18. The output folder of a subfolder [name] of the input folder is
    [<output>/<name>_<target>LUFS], whatever the input folder is called and
    whether or not its path ends in a slash; the run and the driver compute
    it by the same expression. A folder path that itself ends in a slash
    has an empty base name: its output folder is [<output>/_<target>LUFS]. *)
Theorem output_folder_is_named_after_the_subfolder (lib : Library)
    (input_folder output_folder name folder : string) (target : R) :
  slash_free name = true ->
  output_folder_of lib (os_path_join input_folder name) target output_folder
  = os_path_join output_folder (name +:+ "_" +:+ format_float lib target +:+ "LUFS")%string
  /\ output_folder_of lib (folder +:+ "/")%string target output_folder
     = os_path_join output_folder ("_" +:+ format_float lib target +:+ "LUFS")%string.
Proof.
  intros Hname. unfold output_folder_of. split.
  - now rewrite basename_join.
  - unfold os_path_basename. rewrite basename_aux_app. reflexivity.
Qed.

Lemma output_folder_is_named_after_the_subfolder_witness :
  output_folder_of (test_library (-20)) (os_path_join "in" "song") (-14) "out"
  = os_path_join "out" ("song" +:+ "_" +:+ "-14.0" +:+ "LUFS")%string
  /\ output_folder_of (test_library (-20)) ("in/song" +:+ "/")%string (-14) "out"
     = os_path_join "out" ("_" +:+ "-14.0" +:+ "LUFS")%string.
Proof.
  apply (output_folder_is_named_after_the_subfolder (test_library (-20)) "in" "out"
           "song" "in/song" (-14)).
  reflexivity.
Defined.

(** ** Runs that stop half way *)

Section Stops.

Context (lib : Library).
Variables (w : World) (folder output_base_folder : string) (target : R).
Variables (listing : list string) (first : AudioSegment) (rest : list AudioSegment).

Let stems := first :: rest.
Let output_folder := output_folder_of lib folder target output_base_folder.

Hypothesis Hdir : dirs w !! folder = Some listing.
Hypothesis Hdisc : discovers lib w folder listing stems.

(** X19. When the mix cannot be built, or the meter refuses it, the run and
    the verifier raise that exception before they print or write. *)
Theorem unmeasured_mix_aborts (e : exn) :
  (build_mix lib first stems = Raise e
   \/ exists mix, build_mix lib first stems = Ok mix
                  /\ calculate_loudness lib mix = Raise e) ->
  adjust_stems_in_folder lib folder target output_base_folder w = (Raise e, w)
  /\ verify_output_loudness lib folder target w = (Raise e, w).
Proof.
  intros Hfail.
  pose proof (discovery_run lib w folder listing first rest Hdisc) as Hload.
  unfold adjust_stems_in_folder, verify_output_loudness.
  rewrite !(bind_run _ _ _ _ _ (os_listdir_run _ _ _ Hdir)).
  rewrite !(bind_run _ _ _ _ _ Hload).
  destruct Hfail as [Hmix | (mix & Hmix & Hlevel)].
  - split; apply bind_raise; unfold lift; fold stems; now rewrite Hmix.
  - rewrite !(bind_run _ _ _ _ _ (lift_run _ _ _ Hmix)).
    split; apply bind_raise; unfold lift; now rewrite Hlevel.
Qed.

Variables (mix : AudioSegment) (level : R) (content : list Z).

Hypothesis Hmix : build_mix lib first stems = Ok mix.
Hypothesis Hlevel : calculate_loudness lib mix = Ok level.
Hypothesis Htaken : files w !! output_folder = Some content.

(** X20. When the path of the output folder is taken by a file, the run
    raises [FileExistsError] after it has measured the mix and printed the
    level and the gain; no file or directory is touched. *)
Theorem output_path_taken_by_a_file :
  adjust_stems_in_folder lib folder target output_base_folder w
  = (Raise FileExistsError,
     mkWorld (dirs w) (files w)
             (stdout w ++ [DetectedLoudness level; GainToApply (target - level)%R])).
Proof.
  pose proof (discovery_run lib w folder listing first rest Hdisc) as Hload.
  unfold adjust_stems_in_folder.
  rewrite (bind_run _ _ _ _ _ (os_listdir_run _ _ _ Hdir)).
  rewrite (bind_run _ _ _ _ _ Hload).
  rewrite (bind_run _ _ _ _ _ (lift_run _ _ _ Hmix)).
  rewrite (bind_run _ _ _ _ _ (lift_run _ _ _ Hlevel)).
  rewrite (bind_run _ _ _ _ _ (print_run _ _)). cbv zeta.
  rewrite (bind_run _ _ _ _ _ (print_run _ _)). cbn [dirs files stdout].
  apply bind_raise. unfold os_makedirs. cbn [files].
  unfold output_folder, output_folder_of in Htaken. rewrite Htaken.
  now rewrite <- app_assoc.
Qed.

End Stops.

Lemma deaf_discovers :
  discovers deaf_library song_world "in/song" song_listing [drums; vocals].
Proof. repeat constructor. Qed.

Lemma unmeasured_mix_aborts_witness :
  adjust_stems_in_folder deaf_library "in/song" (-14) "out" song_world
  = (Raise ValueError, song_world)
  /\ verify_output_loudness deaf_library "in/song" (-14) song_world
     = (Raise ValueError, song_world).
Proof.
  apply (unmeasured_mix_aborts deaf_library song_world "in/song" "out" (-14)
           song_listing drums [vocals] eq_refl deaf_discovers ValueError).
  right. exists drums_and_vocals. split; [vm_compute|]; reflexivity.
Defined.

Lemma blocked_discovers (level : R) :
  discovers (test_library level) blocked_world "in/song" song_listing [drums; vocals].
Proof. repeat constructor. Qed.

Lemma output_path_taken_by_a_file_witness :
  adjust_stems_in_folder (test_library (-20)) "in/song" (-14) "out" blocked_world
  = (Raise FileExistsError,
     mkWorld (dirs blocked_world) (files blocked_world)
             [DetectedLoudness (-20); GainToApply (-14 - -20)]).
Proof.
  apply (output_path_taken_by_a_file (test_library (-20)) blocked_world "in/song" "out"
           (-14) song_listing drums [vocals] eq_refl (blocked_discovers _)
           drums_and_vocals (-20) [104; 105] (song_mix _) (song_level _)).
  reflexivity.
Defined.
